(** * Flood damage assessment (app.py): change mask, asset classification,
      loss table and flooded area

    The script compares two Sentinel-1 composites, thresholds their
    difference into a self-masked change mask, overlays the mask on three
    vector layers and reports counts, a loss table and the flooded area.

    Numbers (backscatter in dB, pixel areas, costs, coordinates) are modelled
    as rationals [Q]; a masked pixel and a null server value are [None]. *)

From Stdlib Require Import QArith.
From stdpp Require Import gmap strings list.

(** ** Numbers *)

Definition Qltb (x y : Q) : bool :=
  match (x ?= y)%Q with Lt => true | _ => false end.

(** ** Rasters

    A cell is a position of the 100 m grid at which every reduction of the
    script samples ([scale=100]). An image has one band; [pixel] is the value
    the server samples from it at a cell, [None] where the image is masked
    or has no data. [nominalScale] is the native resolution of the image;
    how the server resamples from it is not modelled, and no operator of the
    script reads it. *)

Definition Cell : Type := (Z * Z)%type.

Record Image := mkImage {
  band : string;
  nominalScale : Q;
  pixel : Cell -> option Q
}.

(** [a.subtract(b)] and [a.multiply(b)]: per cell, defined where both
    operands are; band name and projection come from the left operand. *)
Definition binop (op : Q -> Q -> Q) (a b : Image) : Image :=
  {| band := band a;
     nominalScale := nominalScale a;
     pixel := fun c =>
       match pixel a c, pixel b c with
       | Some x, Some y => Some (op x y)
       | _, _ => None
       end |}.

Definition subtract : Image -> Image -> Image := binop Qminus.
Definition multiply : Image -> Image -> Image := binop Qmult.

(** [a.lt(t)]: 1 where the value is below [t], 0 elsewhere, masked where
    [a] is. *)
Definition lt (a : Image) (t : Q) : Image :=
  {| band := band a;
     nominalScale := nominalScale a;
     pixel := fun c =>
       match pixel a c with
       | Some v => Some (if Qltb v t then 1%Q else 0%Q)
       | None => None
       end |}.

(** [a.selfMask()]: masks the pixels whose value is zero. *)
Definition selfMask (a : Image) : Image :=
  {| band := band a;
     nominalScale := nominalScale a;
     pixel := fun c =>
       match pixel a c with
       | Some v => if Qeq_bool v 0 then None else Some v
       | None => None
       end |}.

Definition rename (a : Image) (name : string) : Image :=
  {| band := name; nominalScale := nominalScale a; pixel := pixel a |}.

(** ** Flood detection (lines 56-58) *)

Definition vv_diff (pre_img post_img : Image) : Image :=
  subtract pre_img post_img.

(** The mask expression of line 58 with its literal as a parameter. *)
Definition flood_mask_at (t : Q) (pre_img post_img : Image) : Image :=
  rename (selfMask (lt (vv_diff pre_img post_img) t)) "flooded".

Definition threshold : Q := (-1.5)%Q.

Definition flood_mask (pre_img post_img : Image) : Image :=
  flood_mask_at threshold pre_img post_img.

(** A cell is flagged when the mask holds a value there. *)
Definition flagged (m : Image) (c : Cell) : bool :=
  match pixel m c with Some _ => true | None => false end.

Definition constant (v : Q) : Image :=
  {| band := "constant"; nominalScale := 1; pixel := fun _ => Some v |}.

(** ** Vectors

    A geometry is known by the grid cells its footprint covers at the
    reduction scale and by its centroid (longitude, latitude). *)

Record Geometry := mkGeometry {
  cells : list Cell;
  centroid : Q * Q
}.

Record Feature := mkFeature {
  geometry : Geometry;
  properties : gmap string Q
}.

Definition FeatureCollection : Type := list Feature.

(** [f.set(k, v)]: a null value leaves the property unset. *)
Definition set (f : Feature) (k : string) (v : option Q) : Feature :=
  {| geometry := geometry f;
     properties := match v with
                   | Some x => <[k := x]> (properties f)
                   | None => delete k (properties f)
                   end |}.

(** ** Deferred server values

    An Earth Engine object built on the client is a description of a
    computation. [value] is what the server yields when it is evaluated and
    [reductions] the [reduceRegion] calls that evaluation performs. *)

Inductive Reducer := Reducer_max | Reducer_sum.

Definition Reduction : Type := (Reducer * Geometry)%type.

Record ComputedObject (A : Type) := mkComputed {
  value : A;
  reductions : list Reduction
}.
Arguments mkComputed {A} _ _.
Arguments value {A} _.
Arguments reductions {A} _.

#[global] Instance ComputedObject_ret : MRet ComputedObject :=
  fun A a => mkComputed a [].
#[global] Instance ComputedObject_bind : MBind ComputedObject :=
  fun A B f m =>
    let r := f (value m) in
    mkComputed (value r) (reductions m ++ reductions r).
#[global] Instance ComputedObject_fmap : FMap ComputedObject :=
  fun A B f m => mkComputed (f (value m)) (reductions m).

(** ** Python side: exceptions and the log of server work *)

(** The exceptions the script's own statements raise. A failure of the
    server or of the connection (an [ee.EEException], an oversize result, a
    time-out) is outside the model: a run is followed as long as its server
    calls return. *)

Inductive Exception := TypeError | KeyError (key : string).

Definition Py (A : Type) : Type :=
  list Reduction -> (Exception + A) * list Reduction.

#[global] Instance Py_ret : MRet Py := fun A a log => (inr a, log).
#[global] Instance Py_bind : MBind Py :=
  fun A B f m log =>
    match m log with
    | (inr a, log') => f a log'
    | (inl e, log') => (inl e, log')
    end.

Definition raise {A : Type} (e : Exception) : Py A := fun log => (inl e, log).

(** [h.getInfo()], for a call that returns: the server evaluates the
    description and the client receives its value. *)
Definition getInfo {A : Type} (h : ComputedObject A) : Py A :=
  fun log => (inr (value h), log ++ reductions h).

(** A Python reference is [None] or an object. *)
Inductive PyRef (A : Type) := PyNone | PyObj (a : A).
Arguments PyNone {A}.
Arguments PyObj {A} _.

(** ** Zonal reduction *)

Definition Qmaxb (x y : Q) : Q := if Qle_bool x y then y else x.

Definition combine (r : Reducer) : Q -> Q -> Q :=
  match r with
  | Reducer_max => Qmaxb
  | Reducer_sum => Qplus
  end.

(** The values of the unmasked pixels of [img] under the footprint. *)
Definition defined_values (img : Image) (g : Geometry) : list Q :=
  omap (pixel img) (cells g).

(** Modelled from the spec: the server-side reducer of [reduceRegion] is not
    part of the repository. Section 4.2 has it return the statistic of the
    mask values over the footprint, and an absent value when the geometry
    overlaps no defined cell. *)
Definition reduce (r : Reducer) (vs : list Q) : option Q :=
  match vs with
  | [] => None
  | v :: vs' => Some (fold_left (combine r) vs' v)
  end.

(** [img.reduceRegion(reducer, geometry, scale=100, maxPixels=1e13)]: a
    dictionary from the band name to the statistic; a null statistic reads
    as an unbound key. *)
Definition reduceRegion (img : Image) (reducer : Reducer) (g : Geometry)
  : ComputedObject (gmap string Q) :=
  mkComputed
    (match reduce reducer (defined_values img g) with
     | Some v => {[ band img := v ]}
     | None => ∅
     end)
    [(reducer, g)].

Definition get (d : ComputedObject (gmap string Q)) (k : string)
  : ComputedObject (option Q) :=
  (fun m : gmap string Q => m !! k) <$> d.

(** ** Collections on the server *)

Definition ee_map (f : Feature -> ComputedObject Feature)
    (fc : ComputedObject FeatureCollection) : ComputedObject FeatureCollection :=
  l ← fc; mapM f l.

Definition Filter_eq (k : string) (v : Q) (f : Feature) : bool :=
  match properties f !! k with
  | Some x => Qeq_bool x v
  | None => false
  end.

Definition ee_filter (p : Feature -> bool)
    (fc : ComputedObject FeatureCollection) : ComputedObject FeatureCollection :=
  List.filter p <$> fc.

Definition size (fc : ComputedObject FeatureCollection) : ComputedObject nat :=
  length <$> fc.

Definition intersects (g1 g2 : Geometry) : bool :=
  existsb (fun c => bool_decide (c ∈ cells g2)) (cells g1).

Definition filterBounds (fc : ComputedObject FeatureCollection) (g : Geometry)
  : ComputedObject FeatureCollection :=
  List.filter (fun f => intersects (geometry f) g) <$> fc.

Definition limit (fc : ComputedObject FeatureCollection) (n : nat)
  : ComputedObject FeatureCollection :=
  take n <$> fc.

(** ** Tables (pandas) *)

Record Row := mkRow {
  Type_ : string;
  Latitude : Q;
  Longitude : Q;
  Estimated_Loss_INR : Q
}.

Record DataFrame := mkDataFrame {
  columns : list string;
  rows : list Row
}.

Definition row_columns : list string :=
  ["Type"; "Latitude"; "Longitude"; "Estimated_Loss_INR"].

(** [pd.DataFrame(rows)]; [pd.DataFrame()] is [pd_DataFrame []]. A frame
    built from no record has no column. *)
Definition pd_DataFrame (rs : list Row) : DataFrame :=
  {| columns := match rs with [] => [] | _ :: _ => row_columns end;
     rows := rs |}.

(** [df.empty]: some axis has length zero. *)
Definition empty (df : DataFrame) : bool :=
  (length (rows df) =? 0)%nat || (length (columns df) =? 0)%nat.

(** [df["Estimated_Loss_INR"]]. *)
Definition loss_column (df : DataFrame) : Py (list Q) :=
  if bool_decide ("Estimated_Loss_INR" ∈ columns df)
  then mret (Estimated_Loss_INR <$> rows df)
  else raise (KeyError "Estimated_Loss_INR").

Definition Series_sum (s : list Q) : Q := foldr Qplus 0%Q s.

(** [d[k]] on a Python dict. *)
Definition getitem (d : gmap string Q) (k : string) : Py Q :=
  match d !! k with
  | Some v => mret v
  | None => raise (KeyError k)
  end.

(** ** Marking the flooded assets (lines 77-109) *)

Definition mark (flood_mask : Image) (f : Feature) : ComputedObject Feature :=
  v ← get (reduceRegion flood_mask Reducer_max (geometry f)) "flooded";
  mret (set f "flooded" v).

Definition locate (unit_cost : Q) (f : Feature) : ComputedObject Feature :=
  mret (set (set (set f "lon" (Some (fst (centroid (geometry f)))))
                 "lat" (Some (snd (centroid (geometry f)))))
            "loss_inr" (Some unit_cost)).

Definition row_of (name : string) (f : Feature) : Py Row :=
  lat ← getitem (properties f) "lat";
  lon ← getitem (properties f) "lon";
  loss ← getitem (properties f) "loss_inr";
  mret {| Type_ := name; Latitude := lat; Longitude := lon;
          Estimated_Loss_INR := loss |}.

Definition mark_flooded_assets (fc : ComputedObject FeatureCollection)
    (flood_mask : Image) (name : string) (unit_cost : Q)
  : Py (ComputedObject FeatureCollection * nat * DataFrame) :=
  n ← getInfo (size fc);
  if (n =? 0)%nat then mret (fc, 0%nat, pd_DataFrame [])
  else
    let flooded := ee_map (mark flood_mask) fc in
    let flooded_only := ee_filter (Filter_eq "flooded" 1) flooded in
    count ← getInfo (size flooded_only);
    coords ← getInfo (ee_map (locate unit_cost) flooded_only);
    rows ← mapM (row_of name) coords;
    mret (flooded_only, count, pd_DataFrame rows).

(** ** The script *)

(** What the run reads from the outside: the AOI of the sidebar, the two
    composites [get_sentinel1_image] returns, the image of
    [ee.Image.pixelArea()] and the three vector sources (the GHSL layer as
    [reduceToVectors] polygonises it over the AOI). *)
Record Scene := mkScene {
  aoi : Geometry;
  pre_img : Image;
  post_img : Image;
  pixelArea : Image;
  GHSL_vectors : FeatureCollection;
  WDPA_polygons : FeatureCollection;
  TIGER_Roads : FeatureCollection
}.

Definition buildings (s : Scene) : ComputedObject FeatureCollection :=
  mret (GHSL_vectors s).

Definition hospitals (s : Scene) : ComputedObject FeatureCollection :=
  limit (filterBounds (mret (WDPA_polygons s)) (aoi s)) 10.

Definition roads (s : Scene) : ComputedObject FeatureCollection :=
  limit (filterBounds (mret (TIGER_Roads s)) (aoi s)) 50.

Definition building_cost : Q := 500000.
Definition road_cost : Q := 1000000.
Definition hospital_cost : Q := 5000000.

Record Losses := mkLosses {
  b_count : nat;
  r_count : nat;
  h_count : nat;
  all_df : DataFrame;
  total_loss : Q
}.

(** [pd.concat(frames, ignore_index=True)]. *)
Definition pd_concat (frames : list DataFrame) : DataFrame :=
  {| columns := remove_dups (concat (columns <$> frames));
     rows := concat (rows <$> frames) |}.

(** Lines 116-122. *)
Definition assess_losses (s : Scene) : Py Losses :=
  let m := flood_mask (pre_img s) (post_img s) in
  '(_, b_count, b_df) ← mark_flooded_assets (buildings s) m "Building" building_cost;
  '(_, r_count, r_df) ← mark_flooded_assets (roads s) m "Road" road_cost;
  '(_, h_count, h_df) ← mark_flooded_assets (hospitals s) m "Hospital" hospital_cost;
  let all_df := pd_concat [b_df; r_df; h_df] in
  total_loss ← (if negb (empty all_df)
                then col ← loss_column all_df; mret (Series_sum col)
                else mret 0%Q);
  mret {| b_count := b_count; r_count := r_count; h_count := h_count;
          all_df := all_df; total_loss := total_loss |}.

(** Lines 130-136: the client-side object bound to [flood_area]. *)
Definition flood_area_object (s : Scene) : PyRef (ComputedObject (option Q)) :=
  PyObj (get (reduceRegion
                (multiply (flood_mask (pre_img s) (post_img s)) (pixelArea s))
                Reducer_sum (aoi s))
             "flooded").

(** [x / 1e6] on a fetched value: [None / 1e6] is a [TypeError]. *)
Definition truediv (x : option Q) (y : Q) : Py Q :=
  match x with
  | Some v => mret (v / y)%Q
  | None => raise TypeError
  end.

(** Lines 138-141, on the object bound to [flood_area] at line 136. *)
Definition resolve_flood_area (obj : PyRef (ComputedObject (option Q)))
  : Py Q :=
  match obj with
  | PyObj h => v ← getInfo h; truediv v 1000000
  | PyNone => mret 0%Q
  end.

Definition flood_area (s : Scene) : Py Q :=
  resolve_flood_area (flood_area_object s).

Record ImpactReport := mkReport {
  losses : Losses;
  flood_area_km2 : Q
}.

Definition run (s : Scene) : Py ImpactReport :=
  l ← assess_losses s;
  a ← flood_area s;
  mret {| losses := l; flood_area_km2 := a |}.

(** ** Notions used by the properties *)

(** The flagged cells of a region. *)
Definition flagged_cells (m : Image) (region : list Cell) : list Cell :=
  List.filter (flagged m) region.

(** What a MAX reduction of [m] over [g] yields for the band the script
    reads. *)
Definition zonal_max (m : Image) (g : Geometry) : option Q :=
  value (get (reduceRegion m Reducer_max g) "flooded").

(** The collection after [fc.map(...)] of line 81, and after the filter of
    line 90. *)
Definition marked (m : Image) (fc : FeatureCollection) : FeatureCollection :=
  (fun f => set f "flooded" (zonal_max m (geometry f))) <$> fc.

Definition flooded_features (m : Image) (fc : FeatureCollection)
  : FeatureCollection :=
  List.filter (Filter_eq "flooded" 1) (marked m fc).

(** The record appended for a flooded feature (lines 102-107). *)
Definition table_row (name : string) (unit_cost : Q) (f : Feature) : Row :=
  {| Type_ := name;
     Latitude := snd (centroid (geometry f));
     Longitude := fst (centroid (geometry f));
     Estimated_Loss_INR := unit_cost |}.

(** The reductions one evaluation of the marked collection performs. *)
Definition mark_reductions (fc : ComputedObject FeatureCollection)
  : list Reduction :=
  (fun f => (Reducer_max, geometry f)) <$> value fc.

(** A fetched value that is the number 1. *)
Definition equals_one (o : option Q) : bool :=
  match o with
  | Some v => Qeq_bool v 1
  | None => false
  end.

(** The records the classifier tabulates for one layer. *)
Definition asset_rows (m : Image) (fc : ComputedObject FeatureCollection)
    (name : string) (unit_cost : Q) : list Row :=
  table_row name unit_cost <$> flooded_features m (value fc).

Definition rows_of_type (name : string) (df : DataFrame) : list Row :=
  List.filter (fun r => bool_decide (Type_ r = name)) (rows df).

(** The counts, table and total of lines 116-122 as functions of the
    scene. *)
Definition tabulated_losses (s : Scene) : Losses :=
  let m := flood_mask (pre_img s) (post_img s) in
  let rb := asset_rows m (buildings s) "Building" building_cost in
  let rr := asset_rows m (roads s) "Road" road_cost in
  let rh := asset_rows m (hospitals s) "Hospital" hospital_cost in
  {| b_count := length rb; r_count := length rr; h_count := length rh;
     all_df := pd_concat [pd_DataFrame rb; pd_DataFrame rr; pd_DataFrame rh];
     total_loss := Series_sum (Estimated_Loss_INR <$> (rb ++ rr ++ rh)) |}.

(** The image reduced for the area, and what the server yields for it. *)
Definition area_image (s : Scene) : Image :=
  multiply (flood_mask (pre_img s) (post_img s)) (pixelArea s).

Definition area_sum (s : Scene) : option Q :=
  value (get (reduceRegion (area_image s) Reducer_sum (aoi s)) "flooded").

(** What a cell adds to the flooded area: its mask value times its area
    where both are defined, nothing elsewhere. *)
Definition cell_contribution (s : Scene) (c : Cell) : Q :=
  match pixel (flood_mask (pre_img s) (post_img s)) c, pixel (pixelArea s) c with
  | Some x, Some y => (x * y)%Q
  | _, _ => 0%Q
  end.

(** The area part of an outcome of a run. *)
Definition area_outcome (r : (Exception + ImpactReport) * list Reduction)
  : Exception + Q :=
  match fst r with
  | inr rep => inr (flood_area_km2 rep)
  | inl e => inl e
  end.

(** The scene with other vector layers. *)
Definition with_layers (s : Scene) (b w t : FeatureCollection) : Scene :=
  {| aoi := aoi s; pre_img := pre_img s; post_img := post_img s;
     pixelArea := pixelArea s;
     GHSL_vectors := b; WDPA_polygons := w; TIGER_Roads := t |}.

(** Two observations share extent and resolution. *)
Definition comparable (a b : Image) : Prop :=
  (nominalScale a == nominalScale b)%Q /\
  forall c, is_Some (pixel a c) <-> is_Some (pixel b c).

Definition aborts {A : Type} (r : (Exception + A) * list Reduction) : Prop :=
  exists e, fst r = inl e.

(** ** A small scene

    The pre-event signal is -10 dB everywhere; the post-event signal is
    -8 dB in row 0 and -9 dB in row 1, and has no data elsewhere. *)

Definition footprint (l : list Cell) : Geometry :=
  {| cells := l; centroid := (85.3, 27.5)%Q |}.

Definition example_pre : Image :=
  {| band := "VV"; nominalScale := 20; pixel := fun _ => Some (-10)%Q |}.

Definition example_post : Image :=
  {| band := "VV"; nominalScale := 10;
     pixel := fun c =>
       match c with
       | (0, _)%Z => Some (-8)%Q
       | (1, _)%Z => Some (-9)%Q
       | _ => None
       end |}.

Definition example_area : Image :=
  {| band := "area"; nominalScale := 1; pixel := fun _ => Some 10000%Q |}.

Definition asset (l : list Cell) : Feature :=
  {| geometry := footprint l; properties := ∅ |}.

Definition example_scene : Scene :=
  {| aoi := footprint [(0, 0); (0, 1); (1, 0); (1, 1)]%Z;
     pre_img := example_pre;
     post_img := example_post;
     pixelArea := example_area;
     GHSL_vectors := [asset [(0, 0)%Z]; asset [(1, 1)%Z]];
     WDPA_polygons := [asset [(5, 5)%Z]];
     TIGER_Roads := [asset [(0, 1); (1, 1)]%Z] |}.

(** The same data with an AOI that covers no cell, and with an AOI in which
    no cell is flagged. *)
Definition example_scene_empty_aoi : Scene :=
  {| aoi := footprint [];
     pre_img := example_pre; post_img := example_post;
     pixelArea := example_area;
     GHSL_vectors := GHSL_vectors example_scene;
     WDPA_polygons := WDPA_polygons example_scene;
     TIGER_Roads := TIGER_Roads example_scene |}.

Definition example_scene_dry : Scene :=
  {| aoi := footprint [(1, 0); (1, 1)]%Z;
     pre_img := example_pre; post_img := example_post;
     pixelArea := example_area;
     GHSL_vectors := GHSL_vectors example_scene;
     WDPA_polygons := WDPA_polygons example_scene;
     TIGER_Roads := TIGER_Roads example_scene |}.

(** ** The built-up layer (line 64)

    [a.clip(g)] masks the pixels outside the geometry and [a.gt(t)] is 1
    where the value exceeds [t], 0 elsewhere. The GHSL image has the one
    band that [select(0)] picks. *)

Definition clip (a : Image) (g : Geometry) : Image :=
  {| band := band a;
     nominalScale := nominalScale a;
     pixel := fun c => if bool_decide (c ∈ cells g) then pixel a c else None |}.

Definition gt (a : Image) (t : Q) : Image :=
  {| band := band a;
     nominalScale := nominalScale a;
     pixel := fun c =>
       match pixel a c with
       | Some v => Some (if Qltb t v then 1%Q else 0%Q)
       | None => None
       end |}.

Definition select0 (a : Image) : Image := a.

Definition ghsl (built : Image) (aoi : Geometry) : Image :=
  selfMask (gt (select0 (clip built aoi)) 0).

(** ** Further notions used by the properties *)

(** The assets of a collection whose MAX reduction is the number 1. *)
Definition flooded_assets (m : Image) (fc : FeatureCollection)
  : FeatureCollection :=
  List.filter (fun f => equals_one (zonal_max m (geometry f))) fc.

(** The features of a source that meet a region. *)
Definition intersecting (fc : FeatureCollection) (g : Geometry)
  : FeatureCollection :=
  List.filter (fun f => intersects (geometry f) g) fc.

(** The area of a cell where the pixel-area image has a value. *)
Definition cell_area (s : Scene) (c : Cell) : Q :=
  default 0%Q (pixel (pixelArea s) c).

(** A count as a number. *)
Definition Qnat (n : nat) : Q := inject_Z (Z.of_nat n).

(** ** Sentinel-1 composites (lines 43-51)

    A scene of the archive is known by its footprint, its acquisition time
    and the three metadata fields the function filters on; [VV] is its VV
    band. Times are instants on a line; [advance_1_month] stands for
    [date.advance(1, 'month')], whose calendar is not part of the
    repository. *)

Record S1Scene := mkS1Scene {
  scene_geometry : Geometry;
  system_time_start : Z;
  instrumentMode : string;
  orbitProperties_pass : string;
  transmitterReceiverPolarisation : list string;
  VV : Cell -> option Q
}.

(** [filterBounds(aoi)], [filterDate(start, end)] (the start is included,
    the end is not), [filter(ee.Filter.eq(...))] and
    [filter(ee.Filter.listContains(...))] on the archive. *)
Definition s1_filterBounds (aoi : Geometry) (l : list S1Scene) : list S1Scene :=
  List.filter (fun sc => intersects (scene_geometry sc) aoi) l.

Definition s1_filterDate (start stop : Z) (l : list S1Scene) : list S1Scene :=
  List.filter
    (fun sc => (start <=? system_time_start sc)%Z &&
               (system_time_start sc <? stop)%Z) l.

Definition s1_filter_mode (l : list S1Scene) : list S1Scene :=
  List.filter (fun sc => String.eqb (instrumentMode sc) "IW") l.

Definition s1_filter_pass (l : list S1Scene) : list S1Scene :=
  List.filter (fun sc => String.eqb (orbitProperties_pass sc) "DESCENDING") l.

Definition s1_filter_polarisation (l : list S1Scene) : list S1Scene :=
  List.filter
    (fun sc => bool_decide ("VV" ∈ transmitterReceiverPolarisation sc)) l.

(** [collection.mean()] at one pixel: the mean of the values of the scenes
    that are not masked there, nothing when there is none. The value is the
    exact mean; the server rounds. *)
Definition mean_of (vs : list Q) : option Q :=
  match vs with
  | [] => None
  | _ :: _ => Some (Series_sum vs / Qnat (length vs))%Q
  end.

Definition selected_scenes (advance_1_month : Z -> Z)
    (archive : list S1Scene) (aoi : Geometry) (date : Z) : list S1Scene :=
  s1_filter_polarisation
    (s1_filter_pass
       (s1_filter_mode
          (s1_filterDate date (advance_1_month date)
             (s1_filterBounds aoi archive)))).

(** A composite has the default projection, at one degree. *)
Definition get_sentinel1_image (advance_1_month : Z -> Z)
    (archive : list S1Scene) (aoi : Geometry) (date : Z) : Image :=
  {| band := "VV";
     nominalScale := 111320;
     pixel := fun c =>
       mean_of (omap (fun sc => VV sc c)
                  (selected_scenes advance_1_month archive aoi date)) |}.

(** * Properties *)

(** ** Numbers *)

Lemma Qltb_lt x y : Qltb x y = true <-> (x < y)%Q.
Proof.
  unfold Qltb. rewrite Qlt_alt. destruct (x ?= y)%Q; split; congruence.
Qed.

(** ** The change mask *)

Example scenario_A c : pixel (flood_mask (constant (-10.0)) (constant (-8.0))) c = Some 1%Q.
Proof. reflexivity. Qed.

Example scenario_B c : pixel (flood_mask (constant (-10.0)) (constant (-9.0))) c = None.
Proof. reflexivity. Qed.

Lemma flood_mask_at_pixel t pre post c :
  pixel (flood_mask_at t pre post) c =
  match pixel pre c, pixel post c with
  | Some p, Some q => if Qltb (p - q) t then Some 1%Q else None
  | _, _ => None
  end.
Proof.
  unfold flood_mask_at, vv_diff, subtract, binop; simpl.
  destruct (pixel pre c) as [p|]; [|reflexivity].
  destruct (pixel post c) as [q|]; [|reflexivity].
  destruct (Qltb (p - q) t); reflexivity.
Qed.

Lemma flood_mask_at_one_or_masked t pre post c :
  pixel (flood_mask_at t pre post) c = Some 1%Q \/
  pixel (flood_mask_at t pre post) c = None.
Proof.
  rewrite flood_mask_at_pixel.
  destruct (pixel pre c), (pixel post c); auto.
  destruct (Qltb _ _); auto.
Qed.

Lemma flagged_iff_one t pre post c :
  flagged (flood_mask_at t pre post) c = true <->
  pixel (flood_mask_at t pre post) c = Some 1%Q.
Proof.
  unfold flagged.
  destruct (flood_mask_at_one_or_masked t pre post c) as [-> | ->];
    split; congruence.
Qed.

Lemma flood_mask_at_flags t pre post c :
  pixel (flood_mask_at t pre post) c = Some 1%Q <->
  exists p q, pixel pre c = Some p /\ pixel post c = Some q /\ (p - q < t)%Q.
Proof.
  rewrite flood_mask_at_pixel. split.
  - destruct (pixel pre c) as [p|]; [|discriminate].
    destruct (pixel post c) as [q|]; [|discriminate].
    destruct (Qltb (p - q) t) eqn:E; [|discriminate].
    intros _. exists p, q. repeat split. now apply Qltb_lt.
  - intros (p & q & -> & -> & Hlt).
    apply Qltb_lt in Hlt. now rewrite Hlt.
Qed.

(** C1. Whatever the two observations and the threshold, a cell of the
    change mask holds 1 exactly when both observations have a value there
    and their difference pre - post is below the threshold; every other cell
    is masked, none holds 0. The script's mask is the one at -1.5: a cell
    with pre = -10.0 and post = -8.0 is flagged, one with post = -9.0 is
    masked. *)
Theorem flood_mask_flags_iff_below_threshold
    (pre post : Image) (t : Q) (c : Cell) :
  (pixel (flood_mask_at t pre post) c = Some 1%Q <->
     exists p q, pixel pre c = Some p /\ pixel post c = Some q /\
                 (p - q < t)%Q) /\
  (pixel (flood_mask_at t pre post) c <> Some 1%Q ->
     pixel (flood_mask_at t pre post) c = None) /\
  flood_mask pre post = flood_mask_at (-1.5) pre post /\
  pixel (flood_mask (constant (-10.0)) (constant (-8.0))) c = Some 1%Q /\
  pixel (flood_mask (constant (-10.0)) (constant (-9.0))) c = None.
Proof.
  split; [apply flood_mask_at_flags|].
  split.
  - destruct (flood_mask_at_one_or_masked t pre post c); tauto.
  - repeat split; reflexivity.
Qed.

Lemma filter_length_le_mono {A} (p q : A -> bool) (l : list A) :
  (forall x, p x = true -> q x = true) ->
  length (List.filter p l) <= length (List.filter q l).
Proof.
  intros Hpq. induction l as [|x l IH]; simpl; [lia|].
  destruct (p x) eqn:Hp.
  - rewrite (Hpq x Hp). simpl. lia.
  - destruct (q x); simpl; lia.
Qed.

(** C6. For fixed observations, a cell flagged at a threshold is flagged at
    every higher threshold, so over any region lowering the threshold never
    raises the number of flagged cells. *)
Theorem flood_mask_threshold_monotone
    (pre post : Image) (t1 t2 : Q) (Hle : (t2 <= t1)%Q) :
  (forall c, flagged (flood_mask_at t2 pre post) c = true ->
             flagged (flood_mask_at t1 pre post) c = true) /\
  (forall region c, c ∈ flagged_cells (flood_mask_at t2 pre post) region ->
                    c ∈ flagged_cells (flood_mask_at t1 pre post) region) /\
  (forall region,
     length (flagged_cells (flood_mask_at t2 pre post) region) <=
     length (flagged_cells (flood_mask_at t1 pre post) region)).
Proof.
  assert (Hmono : forall c, flagged (flood_mask_at t2 pre post) c = true ->
                            flagged (flood_mask_at t1 pre post) c = true).
  { intros c. rewrite !flagged_iff_one, !flood_mask_at_flags.
    intros (p & q & Hp & Hq & Hlt). exists p, q. repeat split; try assumption.
    eapply Qlt_le_trans; eassumption. }
  split; [exact Hmono|]. split.
  - intros region c. unfold flagged_cells.
    rewrite !list_elem_of_In, !filter_In. intros [Hin Hf]. auto.
  - intros region. apply filter_length_le_mono, Hmono.
Qed.

(** ** Zonal reductions of the change mask *)

Lemma defined_values_nil m g :
  defined_values m g = [] <-> forall c, c ∈ cells g -> pixel m c = None.
Proof.
  unfold defined_values. split.
  - intros Hnil c Hc. destruct (pixel m c) as [v|] eqn:E; [|reflexivity].
    assert (Hv : v ∈ omap (pixel m) (cells g))
      by (apply list_elem_of_omap; eauto).
    rewrite Hnil in Hv. inversion Hv.
  - intros Hnone. destruct (omap (pixel m) (cells g)) as [|v vs] eqn:E;
      [reflexivity|].
    assert (Hv : v ∈ omap (pixel m) (cells g))
      by (rewrite E; constructor).
    apply list_elem_of_omap in Hv. destruct Hv as (c & Hc & Hp).
    rewrite (Hnone c Hc) in Hp. discriminate.
Qed.

Lemma defined_values_flood_mask t pre post g v :
  v ∈ defined_values (flood_mask_at t pre post) g -> v = 1%Q.
Proof.
  unfold defined_values. rewrite list_elem_of_omap. intros (c & _ & Hc).
  destruct (flood_mask_at_one_or_masked t pre post c) as [H|H];
    rewrite H in Hc; congruence.
Qed.

Lemma fold_left_Qmaxb_ones vs :
  (forall v, v ∈ vs -> v = 1%Q) -> fold_left Qmaxb vs 1%Q = 1%Q.
Proof.
  induction vs as [|v vs IH]; simpl; [reflexivity|]. intros H.
  rewrite (H v (list_elem_of_here _ _)). change (Qmaxb 1 1) with 1%Q.
  apply IH. intros w Hw. apply H. now constructor.
Qed.

Lemma zonal_max_flood_mask t pre post g :
  zonal_max (flood_mask_at t pre post) g =
  match defined_values (flood_mask_at t pre post) g with
  | [] => None
  | _ :: _ => Some 1%Q
  end.
Proof.
  unfold zonal_max, get, reduceRegion, reduce. simpl.
  pose proof (defined_values_flood_mask t pre post g) as Hall.
  destruct (defined_values (flood_mask_at t pre post) g) as [|v vs].
  - apply lookup_empty.
  - rewrite (Hall v (list_elem_of_here _ _)).
    rewrite fold_left_Qmaxb_ones.
    + apply lookup_singleton_eq.
    + intros w Hw. apply Hall. now constructor.
Qed.

(** C9. Over any geometry the MAX reduction of the self-masked change mask
    yields exactly 1 or nothing, never 0: it yields 1 when some cell of the
    footprint is flagged and nothing otherwise, whether the footprint meets
    cells of the observations or not. *)
Theorem zonal_max_flood_mask_one_or_absent
    (pre post : Image) (g : Geometry) :
  (zonal_max (flood_mask pre post) g = Some 1%Q \/
   zonal_max (flood_mask pre post) g = None) /\
  zonal_max (flood_mask pre post) g <> Some 0%Q /\
  (zonal_max (flood_mask pre post) g = Some 1%Q <->
     exists c, c ∈ cells g /\ flagged (flood_mask pre post) c = true) /\
  (zonal_max (flood_mask pre post) g = None <->
     forall c, c ∈ cells g -> flagged (flood_mask pre post) c = false).
Proof.
  unfold flood_mask. rewrite zonal_max_flood_mask.
  pose proof (defined_values_nil (flood_mask_at threshold pre post) g) as Hnil.
  assert (Hflag : forall c, flagged (flood_mask_at threshold pre post) c = false
                            <-> pixel (flood_mask_at threshold pre post) c = None).
  { intros c. unfold flagged. destruct (pixel _ c); split; congruence. }
  destruct (defined_values (flood_mask_at threshold pre post) g) as [|v vs].
  - assert (Hnone : forall c, c ∈ cells g ->
                      flagged (flood_mask_at threshold pre post) c = false).
    { intros c Hc. apply Hflag. now apply Hnil. }
    split; [now right|]. split; [discriminate|]. split; split.
    + discriminate.
    + intros (c & Hc & Hf). rewrite (Hnone c Hc) in Hf. discriminate.
    + intros _. exact Hnone.
    + reflexivity.
  - assert (Hex : exists c, c ∈ cells g /\
                    flagged (flood_mask_at threshold pre post) c = true).
    { destruct (existsb (flagged (flood_mask_at threshold pre post)) (cells g)) eqn:E.
      - apply existsb_exists in E. destruct E as (c & Hc & Hf).
        exists c. split; [now apply list_elem_of_In|exact Hf].
      - exfalso. assert (H : v :: vs = []); [|discriminate].
        apply Hnil. intros c Hc. apply Hflag.
        apply list_elem_of_In in Hc.
        destruct (flagged _ c) eqn:Hf; [|reflexivity].
        assert (existsb (flagged (flood_mask_at threshold pre post)) (cells g) = true)
          by (apply existsb_exists; eauto).
        congruence. }
    split; [now left|]. split; [discriminate|]. split; split.
    + intros _. exact Hex.
    + reflexivity.
    + discriminate.
    + intros H. exfalso. destruct Hex as (c & Hc & Hf).
      rewrite (H c Hc) in Hf. discriminate.
Qed.

(** ** Evaluating collections *)

Lemma mapM_value {A B} (f : A -> ComputedObject B) (l : list A) :
  value (mapM f l) = (fun x => value (f x)) <$> l.
Proof.
  induction l as [|x l IH]; simpl; [reflexivity|].
  f_equal. exact IH.
Qed.

Lemma mapM_reductions {A B} (f : A -> ComputedObject B) (l : list A) :
  reductions (mapM f l) = concat ((fun x => reductions (f x)) <$> l).
Proof.
  induction l as [|x l IH]; simpl; [reflexivity|].
  rewrite app_nil_r. f_equal. exact IH.
Qed.

Lemma ee_map_value f fc :
  value (ee_map f fc) = (fun x => value (f x)) <$> value fc.
Proof. unfold ee_map, mbind, ComputedObject_bind; simpl. apply mapM_value. Qed.

Lemma ee_map_reductions f fc :
  reductions (ee_map f fc) =
  reductions fc ++ concat ((fun x => reductions (f x)) <$> value fc).
Proof.
  unfold ee_map, mbind, ComputedObject_bind; simpl.
  now rewrite mapM_reductions.
Qed.

Lemma concat_fmap_singleton {A B} (f : A -> B) (l : list A) :
  concat ((fun x => [f x]) <$> l) = f <$> l.
Proof. induction l as [|x l IH]; simpl; [reflexivity|]. f_equal. exact IH. Qed.

Lemma concat_fmap_nil {A B} (l : list A) :
  concat ((fun _ => @nil B) <$> l) = [].
Proof. induction l as [|x l IH]; simpl; [reflexivity|]. exact IH. Qed.

Lemma fmap_value {A B} (f : A -> B) (c : ComputedObject A) :
  value (f <$> c) = f (value c).
Proof. reflexivity. Qed.

Lemma fmap_reductions {A B} (f : A -> B) (c : ComputedObject A) :
  reductions (f <$> c) = reductions c.
Proof. reflexivity. Qed.

Lemma flooded_only_value m fc :
  value (ee_filter (Filter_eq "flooded" 1) (ee_map (mark m) fc)) =
  flooded_features m (value fc).
Proof.
  unfold ee_filter. rewrite fmap_value, ee_map_value. reflexivity.
Qed.

Lemma flooded_only_reductions m fc :
  reductions (ee_filter (Filter_eq "flooded" 1) (ee_map (mark m) fc)) =
  reductions fc ++ mark_reductions fc.
Proof.
  unfold ee_filter. rewrite fmap_reductions, ee_map_reductions. f_equal.
  unfold mark_reductions.
  rewrite <- (concat_fmap_singleton (fun f => (Reducer_max, geometry f))).
  reflexivity.
Qed.

Lemma mapM_Py_total {A B C} (f : B -> Py C) (h : A -> B) (g : A -> C)
    (l : list A) log :
  (forall x log', f (h x) log' = (inr (g x), log')) ->
  mapM f (h <$> l) log = (inr (g <$> l), log).
Proof.
  intros Hf. induction l as [|x l IH]; [reflexivity|].
  change (mapM f (h <$> x :: l))
    with (y ← f (h x); k ← mapM f (h <$> l); mret (y :: k)).
  unfold mbind at 1. unfold Py_bind at 1. rewrite Hf.
  unfold mbind at 1. unfold Py_bind at 1. rewrite IH. reflexivity.
Qed.

Lemma row_of_locate name unit_cost f log :
  row_of name (value (locate unit_cost f)) log =
  (inr (table_row name unit_cost f), log).
Proof.
  unfold row_of, getitem, locate, set, mbind, Py_bind; simpl.
  rewrite lookup_insert_ne, lookup_insert_eq by discriminate.
  rewrite lookup_insert_ne, lookup_insert_ne, lookup_insert_eq by discriminate.
  rewrite lookup_insert_eq. reflexivity.
Qed.

Lemma Py_bind_getInfo {A B} (h : ComputedObject A) (k : A -> Py B) log :
  (getInfo h ≫= k) log = k (value h) (log ++ reductions h).
Proof. reflexivity. Qed.

Lemma Py_bind_inr {A B} (c : Py A) (k : A -> Py B) log a log' :
  c log = (inr a, log') -> (c ≫= k) log = k a log'.
Proof. intros H. unfold mbind, Py_bind. now rewrite H. Qed.

Lemma size_value fc : value (size fc) = length (value fc).
Proof. reflexivity. Qed.

Lemma size_reductions fc : reductions (size fc) = reductions fc.
Proof. reflexivity. Qed.

(** The outcome of [mark_flooded_assets], in closed form. *)
Lemma mark_flooded_assets_eq fc m name unit_cost log :
  mark_flooded_assets fc m name unit_cost log =
  match value fc with
  | [] => (inr (fc, 0, pd_DataFrame []), log ++ reductions fc)
  | _ :: _ =>
      (inr (ee_filter (Filter_eq "flooded" 1) (ee_map (mark m) fc),
            length (flooded_features m (value fc)),
            pd_DataFrame (table_row name unit_cost <$>
                          flooded_features m (value fc))),
       ((log ++ reductions fc) ++ (reductions fc ++ mark_reductions fc))
         ++ (reductions fc ++ mark_reductions fc))
  end.
Proof.
  unfold mark_flooded_assets.
  rewrite Py_bind_getInfo, size_value, size_reductions.
  destruct (value fc) as [|f0 l] eqn:Hfc; [reflexivity|].
  cbn [length Nat.eqb].
  rewrite Py_bind_getInfo, Py_bind_getInfo.
  rewrite size_value, size_reductions, flooded_only_value.
  rewrite ee_map_value, ee_map_reductions, flooded_only_value.
  rewrite flooded_only_reductions.
  change (fun x : Feature => reductions (locate unit_cost x))
    with (fun _ : Feature => @nil Reduction).
  rewrite concat_fmap_nil, app_nil_r, Hfc.
  erewrite Py_bind_inr; [reflexivity|].
  apply mapM_Py_total. intros x log'. apply row_of_locate.
Qed.

(** ** Classification *)

Lemma Filter_eq_set f o :
  Filter_eq "flooded" 1 (set f "flooded" o) = equals_one o.
Proof.
  unfold Filter_eq, set; simpl. destruct o as [v|]; simpl.
  - now rewrite lookup_insert_eq.
  - now rewrite lookup_delete_eq.
Qed.

Lemma equals_one_iff o :
  equals_one o = true <-> exists v, o = Some v /\ (v == 1)%Q.
Proof.
  destruct o as [v|]; simpl.
  - rewrite Qeq_bool_iff. split; [eauto|].
    intros (w & [= <-] & Hw). exact Hw.
  - split; [discriminate|]. intros (w & Hw & _). discriminate.
Qed.

Lemma flooded_features_elem m fc f' :
  f' ∈ flooded_features m fc <->
  exists f, f ∈ fc /\ f' = set f "flooded" (zonal_max m (geometry f)) /\
            equals_one (zonal_max m (geometry f)) = true.
Proof.
  unfold flooded_features, marked.
  rewrite list_elem_of_In, filter_In, <- list_elem_of_In, list_elem_of_fmap.
  split.
  - intros [(f & -> & Hf) Hone]. rewrite Filter_eq_set in Hone. eauto.
  - intros (f & Hf & -> & Hone). rewrite Filter_eq_set. eauto.
Qed.

Lemma flooded_features_length m fc :
  length (flooded_features m fc) =
  length (List.filter (fun f => equals_one (zonal_max m (geometry f))) fc).
Proof.
  unfold flooded_features, marked.
  induction fc as [|f fc IH]; [reflexivity|].
  cbn [fmap list_fmap List.filter]. rewrite Filter_eq_set.
  destruct (equals_one _); cbn [length]; [f_equal|]; exact IH.
Qed.

(** C2. On a collection that is not empty the classifier keeps exactly the
    assets whose MAX reduction of the mask over their geometry is the number
    1. An asset whose reduction is absent is left out of the flooded
    collection, and the count is the number of assets whose reduction is
    1. *)
Theorem mark_flooded_assets_flags_iff_max_is_one
    (fc : ComputedObject FeatureCollection) (m : Image) (name : string)
    (unit_cost : Q) (log : list Reduction) (Hne : value fc <> []) :
  exists flooded_only count df log',
    mark_flooded_assets fc m name unit_cost log =
      (inr (flooded_only, count, df), log') /\
    (forall f, f ∈ value fc ->
       (set f "flooded" (zonal_max m (geometry f)) ∈ value flooded_only <->
        exists v, zonal_max m (geometry f) = Some v /\ (v == 1)%Q)) /\
    (forall f, f ∈ value fc -> zonal_max m (geometry f) = None ->
       set f "flooded" (zonal_max m (geometry f)) ∉ value flooded_only) /\
    (forall f', f' ∈ value flooded_only ->
       exists f v, f ∈ value fc /\ zonal_max m (geometry f) = Some v /\
                   (v == 1)%Q /\ f' = set f "flooded" (Some v)) /\
    count = length (value flooded_only) /\
    count = length (List.filter
                      (fun f => equals_one (zonal_max m (geometry f)))
                      (value fc)).
Proof.
  pose proof (mark_flooded_assets_eq fc m name unit_cost log) as Heq.
  destruct (value fc) as [|f0 l] eqn:Hfc; [congruence|].
  eexists _, _, _, _. split; [exact Heq|].
  rewrite flooded_only_value, Hfc.
  assert (Hiff : forall f, f ∈ f0 :: l ->
            (set f "flooded" (zonal_max m (geometry f))
               ∈ flooded_features m (f0 :: l) <->
             exists v, zonal_max m (geometry f) = Some v /\ (v == 1)%Q)).
  { intros f Hf. rewrite flooded_features_elem, <- equals_one_iff. split.
    - intros (f1 & _ & Hset & Hone).
      rewrite <- Filter_eq_set with (f := f1) in Hone.
      rewrite <- Hset, Filter_eq_set in Hone. exact Hone.
    - intros Hone. exists f. auto. }
  split; [exact Hiff|]. split; [|split; [|split]].
  - intros f Hf Hnone Hin. apply Hiff in Hin; [|exact Hf].
    destruct Hin as (v & Hv & _). congruence.
  - intros f' Hf'. apply flooded_features_elem in Hf'.
    destruct Hf' as (f & Hf & -> & Hone).
    apply equals_one_iff in Hone. destruct Hone as (v & Hv & Hv1).
    exists f, v. rewrite Hv. auto.
  - reflexivity.
  - apply flooded_features_length.
Qed.

(** Evaluating one of the three layers costs no reduction. *)
Lemma layers_cost_no_reduction s :
  reductions (buildings s) = [] /\ reductions (roads s) = [] /\
  reductions (hospitals s) = [].
Proof. repeat split. Qed.

(** C5. On an empty collection the classifier returns the collection it was
    given, the count 0 and an empty table at once: the server only evaluates
    the size of that collection and no reduction is added for any
    geometry. *)
Theorem mark_flooded_assets_empty
    (fc : ComputedObject FeatureCollection) (m : Image) (name : string)
    (unit_cost : Q) (log : list Reduction) (Hempty : value fc = []) :
  mark_flooded_assets fc m name unit_cost log =
    (inr (fc, 0, pd_DataFrame []), log ++ reductions fc) /\
  rows (pd_DataFrame []) = [] /\
  (reductions fc = [] ->
   snd (mark_flooded_assets fc m name unit_cost log) = log).
Proof.
  rewrite mark_flooded_assets_eq, Hempty. repeat split.
  intros ->. apply app_nil_r.
Qed.

(** ** The loss table *)

Lemma mark_flooded_assets_table fc m name unit_cost log :
  exists h log',
    mark_flooded_assets fc m name unit_cost log =
    (inr (h, length (asset_rows m fc name unit_cost),
          pd_DataFrame (asset_rows m fc name unit_cost)), log').
Proof.
  rewrite mark_flooded_assets_eq. unfold asset_rows.
  destruct (value fc) as [|f0 l].
  - eexists _, _. reflexivity.
  - eexists _, _. rewrite length_fmap. reflexivity.
Qed.

Lemma asset_rows_type m fc name unit_cost :
  Forall (fun r => Type_ r = name) (asset_rows m fc name unit_cost).
Proof.
  unfold asset_rows. apply Forall_forall. intros r Hr.
  apply list_elem_of_fmap in Hr. destruct Hr as (f & -> & _). reflexivity.
Qed.

Lemma filter_type_all name (l : list Row) :
  Forall (fun r => Type_ r = name) l ->
  List.filter (fun r => bool_decide (Type_ r = name)) l = l.
Proof.
  induction 1 as [|r l Hr _ IH]; [reflexivity|].
  cbn [List.filter]. rewrite bool_decide_eq_true_2 by exact Hr.
  f_equal. exact IH.
Qed.

Lemma filter_type_none name name' (l : list Row) :
  name' <> name ->
  Forall (fun r => Type_ r = name') l ->
  List.filter (fun r => bool_decide (Type_ r = name)) l = [].
Proof.
  intros Hne. induction 1 as [|r l Hr _ IH]; [reflexivity|].
  cbn [List.filter]. rewrite bool_decide_eq_false_2 by congruence.
  exact IH.
Qed.

Lemma pd_concat_rows a b c :
  rows (pd_concat [a; b; c]) = rows a ++ rows b ++ rows c.
Proof. unfold pd_concat; simpl. now rewrite app_nil_r. Qed.

Lemma pd_concat_has_loss_column ra rb rc :
  ra ++ rb ++ rc <> [] ->
  "Estimated_Loss_INR" ∈
    columns (pd_concat [pd_DataFrame ra; pd_DataFrame rb; pd_DataFrame rc]).
Proof.
  intros Hne. unfold pd_concat. cbn [columns fmap list_fmap].
  apply elem_of_remove_dups.
  assert (Hin : "Estimated_Loss_INR" ∈ row_columns)
    by (unfold row_columns; repeat constructor).
  destruct ra as [|x ra].
  - destruct rb as [|y rb].
    + destruct rc as [|z rc]; [now contradiction Hne|].
      cbn [concat app pd_DataFrame columns]. rewrite app_nil_r. exact Hin.
    + cbn [concat app pd_DataFrame columns].
      apply elem_of_app. now left.
  - cbn [concat app pd_DataFrame columns].
    apply elem_of_app. now left.
Qed.

(** The outcome of lines 116-122, in closed form. *)
Lemma assess_losses_eq s log :
  exists log', assess_losses s log = (inr (tabulated_losses s), log').
Proof.
  unfold tabulated_losses.
  set (m := flood_mask (pre_img s) (post_img s)).
  set (rb := asset_rows m (buildings s) "Building" building_cost).
  set (rr := asset_rows m (roads s) "Road" road_cost).
  set (rh := asset_rows m (hospitals s) "Hospital" hospital_cost).
  unfold assess_losses.
  destruct (mark_flooded_assets_table (buildings s) m "Building"
              building_cost log) as (hb & log1 & Hb).
  destruct (mark_flooded_assets_table (roads s) m "Road"
              road_cost log1) as (hr & log2 & Hr).
  destruct (mark_flooded_assets_table (hospitals s) m "Hospital"
              hospital_cost log2) as (hh & log3 & Hh).
  fold rb in Hb. fold rr in Hr. fold rh in Hh.
  exists log3.
  rewrite (Py_bind_inr _ _ _ _ _ Hb). cbn beta iota.
  rewrite (Py_bind_inr _ _ _ _ _ Hr). cbn beta iota.
  rewrite (Py_bind_inr _ _ _ _ _ Hh). cbn beta iota.
  set (all := pd_concat [pd_DataFrame rb; pd_DataFrame rr; pd_DataFrame rh]).
  assert (Hrows : rows all = rb ++ rr ++ rh) by apply pd_concat_rows.
  destruct (empty all) eqn:Hempty; cbn [negb].
  - assert (Hnil : rb ++ rr ++ rh = []).
    { unfold empty in Hempty. apply orb_true_iff in Hempty.
      destruct Hempty as [H|H]; apply Nat.eqb_eq in H.
      - rewrite Hrows in H. now destruct (rb ++ rr ++ rh).
      - destruct (rb ++ rr ++ rh) eqn:E; [reflexivity|]. exfalso.
        assert (Hin : "Estimated_Loss_INR" ∈ columns all).
        { apply pd_concat_has_loss_column. rewrite E. discriminate. }
        destruct (columns all); [inversion Hin|discriminate]. }
    rewrite Hnil. reflexivity.
  - assert (Hne : rb ++ rr ++ rh <> []).
    { intros Hnil. unfold empty in Hempty. rewrite Hrows, Hnil in Hempty.
      discriminate. }
    unfold loss_column.
    rewrite bool_decide_eq_true_2 by now apply pd_concat_has_loss_column.
    unfold mbind, Py_bind, mret, Py_ret. rewrite Hrows. reflexivity.
Qed.

Lemma tabulated_rows s :
  let m := flood_mask (pre_img s) (post_img s) in
  rows (all_df (tabulated_losses s)) =
    asset_rows m (buildings s) "Building" building_cost ++
    asset_rows m (roads s) "Road" road_cost ++
    asset_rows m (hospitals s) "Hospital" hospital_cost.
Proof. apply pd_concat_rows. Qed.

Lemma tabulated_rows_of_type s :
  let m := flood_mask (pre_img s) (post_img s) in
  rows_of_type "Building" (all_df (tabulated_losses s)) =
    asset_rows m (buildings s) "Building" building_cost /\
  rows_of_type "Road" (all_df (tabulated_losses s)) =
    asset_rows m (roads s) "Road" road_cost /\
  rows_of_type "Hospital" (all_df (tabulated_losses s)) =
    asset_rows m (hospitals s) "Hospital" hospital_cost.
Proof.
  intros m. unfold rows_of_type. rewrite tabulated_rows. fold m.
  pose proof (asset_rows_type m (buildings s) "Building" building_cost) as Hb.
  pose proof (asset_rows_type m (roads s) "Road" road_cost) as Hr.
  pose proof (asset_rows_type m (hospitals s) "Hospital" hospital_cost) as Hh.
  rewrite !List.filter_app.
  repeat split.
  - rewrite (filter_type_all _ _ Hb).
    rewrite (filter_type_none "Building" "Road" _ ltac:(discriminate) Hr).
    rewrite (filter_type_none "Building" "Hospital" _ ltac:(discriminate) Hh).
    now rewrite !app_nil_r.
  - rewrite (filter_type_all _ _ Hr).
    rewrite (filter_type_none "Road" "Building" _ ltac:(discriminate) Hb).
    rewrite (filter_type_none "Road" "Hospital" _ ltac:(discriminate) Hh).
    now rewrite app_nil_r.
  - rewrite (filter_type_all _ _ Hh).
    rewrite (filter_type_none "Hospital" "Building" _ ltac:(discriminate) Hb).
    rewrite (filter_type_none "Hospital" "Road" _ ltac:(discriminate) Hr).
    reflexivity.
Qed.

Lemma run_losses s log rep log' :
  run s log = (inr rep, log') -> losses rep = tabulated_losses s.
Proof.
  destruct (assess_losses_eq s log) as (log1 & Hl).
  unfold run. rewrite (Py_bind_inr _ _ _ _ _ Hl).
  unfold mbind, Py_bind. destruct (flood_area s log1) as [[e|a] log2].
  - discriminate.
  - intros [= <- _]. reflexivity.
Qed.

(** C3. Lines 116-122 always yield counts, a table and a total; each count
    is the number of rows of its type, the three counts add up to the number
    of rows, the total is the sum of the loss column, and a table without
    rows comes with total 0 and is an empty frame. A report the run produces
    carries exactly these values. *)
Theorem report_counts_rows_and_total_loss (s : Scene) (log : list Reduction) :
  exists l log1,
    assess_losses s log = (inr l, log1) /\
    b_count l = length (rows_of_type "Building" (all_df l)) /\
    r_count l = length (rows_of_type "Road" (all_df l)) /\
    h_count l = length (rows_of_type "Hospital" (all_df l)) /\
    b_count l + r_count l + h_count l = length (rows (all_df l)) /\
    total_loss l = Series_sum (Estimated_Loss_INR <$> rows (all_df l)) /\
    (rows (all_df l) = [] ->
     total_loss l = 0%Q /\ empty (all_df l) = true /\
     all_df l = pd_DataFrame []) /\
    (forall rep log2, run s log = (inr rep, log2) -> losses rep = l).
Proof.
  destruct (assess_losses_eq s log) as (log1 & Hl).
  exists (tabulated_losses s), log1. split; [exact Hl|].
  destruct (tabulated_rows_of_type s) as (Hb & Hr & Hh).
  rewrite Hb, Hr, Hh, tabulated_rows.
  cbn [tabulated_losses b_count r_count h_count total_loss].
  split; [reflexivity|]. split; [reflexivity|]. split; [reflexivity|].
  split; [now rewrite !length_app, Nat.add_assoc|].
  split; [reflexivity|].
  split; [|intros rep log2; apply run_losses].
  intros Hnil. split; [now rewrite Hnil|]. split.
  - unfold empty. rewrite tabulated_rows, Hnil. reflexivity.
  - apply app_eq_nil in Hnil. destruct Hnil as [Hb' Hnil].
    apply app_eq_nil in Hnil. destruct Hnil as [Hr' Hh'].
    unfold tabulated_losses. cbv zeta. cbn [all_df].
    rewrite Hb', Hr', Hh'. reflexivity.
Qed.

(** ** The capped layers *)

(** C10. The hospital layer handed to the classifier has at most 10
    geometries and the road layer at most 50, however many features of the
    source meet the AOI; the hospital and road counts of lines 116-122 are
    bounded by 10 and 50. *)
Theorem hospitals_and_roads_are_capped (s : Scene) (log : list Reduction) :
  length (value (hospitals s)) <= 10 /\
  length (value (roads s)) <= 50 /\
  exists l log1,
    assess_losses s log = (inr l, log1) /\
    h_count l <= 10 /\ r_count l <= 50.
Proof.
  assert (Hh : length (value (hospitals s)) <= 10).
  { unfold hospitals, limit. rewrite fmap_value, length_take. lia. }
  assert (Hr : length (value (roads s)) <= 50).
  { unfold roads, limit. rewrite fmap_value, length_take. lia. }
  assert (Hrows : forall m fc name c,
            length (asset_rows m fc name c) <= length (value fc)).
  { intros m fc name c. unfold asset_rows, flooded_features, marked.
    rewrite length_fmap.
    etransitivity; [apply List.filter_length_le|]. now rewrite length_fmap. }
  split; [exact Hh|]. split; [exact Hr|].
  destruct (assess_losses_eq s log) as (log1 & Hl).
  exists (tabulated_losses s), log1. split; [exact Hl|].
  cbn [tabulated_losses h_count r_count]. split.
  - etransitivity; [apply Hrows|exact Hh].
  - etransitivity; [apply Hrows|exact Hr].
Qed.

(** ** The flooded area *)

Lemma area_sum_eq s :
  area_sum s = reduce Reducer_sum (defined_values (area_image s) (aoi s)).
Proof.
  unfold area_sum, get. rewrite fmap_value. unfold reduceRegion.
  cbn [value]. destruct (reduce _ _) as [v|].
  - change (band (area_image s)) with "flooded". apply lookup_singleton_eq.
  - apply lookup_empty.
Qed.

Lemma flood_area_eq s log :
  flood_area s log =
  (match area_sum s with
   | Some v => inr (v / 1000000)%Q
   | None => inl TypeError
   end, log ++ [(Reducer_sum, aoi s)]).
Proof.
  unfold flood_area, flood_area_object, resolve_flood_area.
  rewrite Py_bind_getInfo.
  change (value (get _ _)) with (area_sum s).
  destruct (area_sum s); reflexivity.
Qed.

Lemma fold_left_Qplus vs v :
  (fold_left Qplus vs v == v + Series_sum vs)%Q.
Proof.
  revert v. induction vs as [|x vs IH]; intros v; cbn [fold_left].
  - unfold Series_sum; simpl. ring.
  - rewrite IH. unfold Series_sum; simpl. ring.
Qed.

Lemma area_image_pixel s c :
  pixel (area_image s) c =
  match pixel (flood_mask (pre_img s) (post_img s)) c, pixel (pixelArea s) c with
  | Some x, Some y => Some (x * y)%Q
  | _, _ => None
  end.
Proof. reflexivity. Qed.

Lemma Series_sum_contributions s l :
  (Series_sum (omap (pixel (area_image s)) l) ==
   Series_sum (cell_contribution s <$> l))%Q.
Proof.
  induction l as [|c l IH]; [reflexivity|].
  change (omap (pixel (area_image s)) (c :: l))
    with (match pixel (area_image s) c with
          | Some v => v :: omap (pixel (area_image s)) l
          | None => omap (pixel (area_image s)) l
          end).
  change (cell_contribution s <$> c :: l)
    with (cell_contribution s c :: (cell_contribution s <$> l)).
  rewrite area_image_pixel. unfold cell_contribution at 1.
  destruct (pixel (flood_mask (pre_img s) (post_img s)) c) as [x|];
    [destruct (pixel (pixelArea s) c) as [y|]|];
    unfold Series_sum in *; cbn [foldr]; rewrite IH; ring.
Qed.

(** A flagged cell contributes its area. *)
Lemma cell_contribution_flagged s c :
  (cell_contribution s c ==
   if flagged (flood_mask (pre_img s) (post_img s)) c
   then default 0 (pixel (pixelArea s) c) else 0)%Q.
Proof.
  unfold cell_contribution, flagged, flood_mask.
  destruct (flood_mask_at_one_or_masked threshold (pre_img s) (post_img s) c)
    as [-> | ->]; [|reflexivity].
  destruct (pixel (pixelArea s) c); simpl; ring.
Qed.

(** When the reduction yields a number, the area is the sum over the cells
    of the AOI of mask value times cell area, divided by 1,000,000. *)
Lemma flood_area_value s log :
  defined_values (area_image s) (aoi s) <> [] ->
  exists a,
    flood_area s log = (inr a, log ++ [(Reducer_sum, aoi s)]) /\
    (a == Series_sum (cell_contribution s <$> cells (aoi s)) / 1000000)%Q.
Proof.
  intros Hne. rewrite flood_area_eq, area_sum_eq.
  pose proof (Series_sum_contributions s (cells (aoi s))) as Hsum.
  fold (defined_values (area_image s) (aoi s)) in Hsum.
  destruct (defined_values (area_image s) (aoi s)) as [|v vs]; [congruence|].
  eexists. split; [reflexivity|].
  cbn [combine]. rewrite fold_left_Qplus, <- Hsum. reflexivity.
Qed.

(** The object of line 136 is never [None]; whenever the value fetched from
    it is, line 139 divides [None]. The branch of line 141 would give 0. *)
Lemma resolve_flood_area_null h log :
  value h = None ->
  resolve_flood_area (PyObj h) log = (inl TypeError, log ++ reductions h).
Proof.
  intros Hnone. unfold resolve_flood_area.
  rewrite Py_bind_getInfo, Hnone. reflexivity.
Qed.

Lemma resolve_flood_area_None log :
  resolve_flood_area PyNone log = (inr 0%Q, log).
Proof. reflexivity. Qed.

Lemma flood_area_object_not_None s : flood_area_object s <> PyNone.
Proof. discriminate. Qed.

Lemma flood_area_null s log :
  defined_values (area_image s) (aoi s) = [] ->
  flood_area s log = (inl TypeError, log ++ [(Reducer_sum, aoi s)]).
Proof.
  intros Hnil. rewrite flood_area_eq, area_sum_eq, Hnil. reflexivity.
Qed.

Lemma run_eq s log :
  exists log',
    run s log =
    (match area_sum s with
     | Some v => inr {| losses := tabulated_losses s;
                        flood_area_km2 := (v / 1000000)%Q |}
     | None => inl TypeError
     end, log').
Proof.
  destruct (assess_losses_eq s log) as (log1 & Hl).
  unfold run. rewrite (Py_bind_inr _ _ _ _ _ Hl).
  unfold mbind, Py_bind. rewrite flood_area_eq.
  destruct (area_sum s); eexists; reflexivity.
Qed.

Lemma run_area_outcome s log :
  area_outcome (run s log) =
  match area_sum s with
  | Some v => inr (v / 1000000)%Q
  | None => inl TypeError
  end.
Proof.
  destruct (run_eq s log) as (log' & ->). unfold area_outcome.
  destruct (area_sum s); reflexivity.
Qed.

(** C4. With an AOI that covers no cell, and with an AOI in which no cell is
    flagged, the SUM reduction yields nothing and the area step raises a
    TypeError instead of giving 0.0: the test of line 138 looks at the
    client-side object, which is never None, and line 139 then divides the
    fetched None. *)
Theorem flood_area_of_null_sum_raises :
  fst (resolve_flood_area (PyObj (mret None)) []) = inl TypeError /\
  area_sum example_scene_empty_aoi = None /\
  fst (flood_area example_scene_empty_aoi []) = inl TypeError /\
  area_sum example_scene_dry = None /\
  fst (flood_area example_scene_dry []) = inl TypeError /\
  fst (run example_scene_dry []) = inl TypeError.
Proof. repeat split; vm_compute; reflexivity. Qed.

(** C7. Replacing the three vector layers of a scene by any others leaves
    the outcome of the area step, and the area part of the outcome of the
    run, unchanged. *)
Theorem flood_area_ignores_asset_layers
    (s : Scene) (b w t : FeatureCollection) (log1 log2 : list Reduction) :
  fst (flood_area (with_layers s b w t) log2) = fst (flood_area s log1) /\
  area_outcome (run (with_layers s b w t) log2) = area_outcome (run s log1).
Proof.
  split.
  - rewrite !flood_area_eq. reflexivity.
  - rewrite !run_area_outcome. reflexivity.
Qed.

(** ** Observations of different extent or resolution *)

(** C8 fails on the small scene: its two observations differ in resolution
    and in extent, and the run yields a report. *)
Lemma mismatched_observations_are_not_rejected :
  ~ comparable (pre_img example_scene) (post_img example_scene) /\
  ~ aborts (run example_scene []) /\
  exists rep, fst (run example_scene []) = inr rep.
Proof.
  split; [|split].
  - intros [Hscale _]. vm_compute in Hscale. discriminate.
  - intros [e He]. vm_compute in He. discriminate.
  - eexists. vm_compute. reflexivity.
Qed.

(** C8, as the code has it. Observations that do not share extent or
    resolution are not rejected: line 57 differences whatever pair it is
    given. A cell that either observation does not cover is left undefined
    in the mask, and a cell both cover is flagged or masked by the test of
    line 58 alone. *)
Theorem change_detection_has_no_mismatch_guard
    (pre post : Image) (c : Cell) :
  (pixel pre c = None \/ pixel post c = None ->
   pixel (flood_mask pre post) c = None) /\
  (forall p q, pixel pre c = Some p -> pixel post c = Some q ->
     pixel (flood_mask pre post) c =
     if Qltb (p - q) (-1.5) then Some 1%Q else None).
Proof.
  unfold flood_mask. rewrite flood_mask_at_pixel. split.
  - intros [-> | ->]; [reflexivity|]. now destruct (pixel pre c).
  - intros p q -> ->. reflexivity.
Qed.

(** ** Instances on the small scene *)

(** Thresholds -1.5 and -0.5 on the observations of the small scene. *)
Lemma flood_mask_threshold_monotone_witness :
  (-1.5 <= -0.5)%Q /\
  forall region,
    length (flagged_cells (flood_mask_at (-1.5) example_pre example_post) region) <=
    length (flagged_cells (flood_mask_at (-0.5) example_pre example_post) region).
Proof.
  assert (Hle : (-1.5 <= -0.5)%Q) by (unfold Qle; simpl; lia).
  split; [exact Hle|].
  apply (flood_mask_threshold_monotone example_pre example_post
           (-0.5) (-1.5) Hle).
Defined.

(** The building layer of the small scene: one of its two assets is kept. *)
Lemma mark_flooded_assets_flags_witness :
  value (buildings example_scene) <> [] /\
  exists flooded_only df log',
    mark_flooded_assets (buildings example_scene)
      (flood_mask example_pre example_post) "Building" building_cost [] =
      (inr (flooded_only, 1, df), log').
Proof.
  split; [discriminate|].
  destruct (mark_flooded_assets_flags_iff_max_is_one
              (buildings example_scene) (flood_mask example_pre example_post)
              "Building" building_cost [] ltac:(discriminate))
    as (fo & count & df & log' & Heq & _ & _ & _ & _ & Hcount).
  exists fo, df, log'. rewrite Heq, Hcount. reflexivity.
Defined.

(** The hospital layer of the small scene is empty: nothing is reduced. *)
Lemma mark_flooded_assets_empty_witness :
  value (hospitals example_scene) = [] /\
  mark_flooded_assets (hospitals example_scene)
    (flood_mask example_pre example_post) "Hospital" hospital_cost [] =
    (inr (hospitals example_scene, 0, pd_DataFrame []), []).
Proof.
  split; [reflexivity|].
  exact (proj1 (mark_flooded_assets_empty (hospitals example_scene)
                  (flood_mask example_pre example_post) "Hospital"
                  hospital_cost [] eq_refl)).
Defined.

Example example_scene_report :
  fst (run example_scene []) =
  inr {| losses :=
           {| b_count := 1; r_count := 1; h_count := 0;
              all_df :=
                {| columns := row_columns;
                   rows := [ {| Type_ := "Building"; Latitude := 27.5;
                                Longitude := 85.3;
                                Estimated_Loss_INR := 500000 |};
                             {| Type_ := "Road"; Latitude := 27.5;
                                Longitude := 85.3;
                                Estimated_Loss_INR := 1000000 |} ] |};
              total_loss := 1500000 |};
         flood_area_km2 := 0.020000 |}.
Proof. vm_compute. reflexivity. Qed.

(** Each evaluation of the marked collection reduces every geometry once,
    and the script evaluates it twice per layer. *)
Example example_scene_reductions :
  length (snd (run example_scene [])) = 7.
Proof. vm_compute. reflexivity. Qed.

(** Scenario E: one flagged cell of 100 m by 100 m is 0.01 square km. *)
Example scenario_E :
  exists a,
    fst (flood_area (with_layers
                       {| aoi := footprint [(0, 0)%Z];
                          pre_img := example_pre; post_img := example_post;
                          pixelArea := example_area;
                          GHSL_vectors := []; WDPA_polygons := [];
                          TIGER_Roads := [] |} [] [] []) []) = inr a /\
    (a == 0.01)%Q.
Proof. eexists. split; [vm_compute; reflexivity | reflexivity]. Qed.

(** * Further properties of the script *)

(** ** The table of one layer *)

Lemma table_row_set name unit_cost f k v :
  table_row name unit_cost (set f k v) = table_row name unit_cost f.
Proof. reflexivity. Qed.

Lemma asset_rows_flooded_assets m fc name unit_cost :
  asset_rows m fc name unit_cost =
  table_row name unit_cost <$> flooded_assets m (value fc).
Proof.
  unfold asset_rows, flooded_features, marked, flooded_assets.
  induction (value fc) as [|f l IH]; [reflexivity|].
  cbn [fmap list_fmap List.filter]. rewrite Filter_eq_set.
  destruct (equals_one _); cbn [fmap list_fmap].
  - rewrite table_row_set. f_equal. exact IH.
  - exact IH.
Qed.

Lemma filter_sublist {A} (p : A -> bool) (l : list A) :
  List.filter p l `sublist_of` l.
Proof.
  induction l as [|x l IH]; cbn [List.filter]; [constructor|].
  destruct (p x); now constructor.
Qed.

Lemma filter_sublist_mono {A} (p q : A -> bool) (l : list A) :
  (forall x, p x = true -> q x = true) ->
  List.filter p l `sublist_of` List.filter q l.
Proof.
  intros Hpq. induction l as [|x l IH]; cbn [List.filter]; [constructor|].
  destruct (p x) eqn:Hp.
  - rewrite (Hpq x Hp). now constructor.
  - destruct (q x); [now constructor|exact IH].
Qed.

Lemma row_of_missing_lat name f log :
  properties f !! "lat" = None ->
  row_of name f log = (inl (KeyError "lat"), log).
Proof.
  intros Hnone. unfold row_of, getitem, mbind, Py_bind. now rewrite Hnone.
Qed.

(** X1. The loop of lines 100-107 raises no KeyError on what lines 94-98
    fetch: every feature mapped there carries lat, lon and loss_inr, where a
    feature without lat would raise KeyError. When the server calls return,
    the table holds, in the order of the collection, one row for each asset
    whose MAX reduction is the number 1, with the layer's name, the centroid
    of the asset and the unit cost; the count is the number of these
    assets. *)
Theorem mark_flooded_assets_rows
    (fc : ComputedObject FeatureCollection) (m : Image) (name : string)
    (unit_cost : Q) (log : list Reduction) :
  (forall (l : FeatureCollection) log0,
     mapM (row_of name) (value (ee_map (locate unit_cost) (mret l))) log0 =
     (inr ((fun f => {| Type_ := name;
                        Latitude := snd (centroid (geometry f));
                        Longitude := fst (centroid (geometry f));
                        Estimated_Loss_INR := unit_cost |}) <$> l), log0)) /\
  (forall f log0, properties f !! "lat" = None ->
     row_of name f log0 = (inl (KeyError "lat"), log0)) /\
  exists flooded_only df log',
    mark_flooded_assets fc m name unit_cost log =
      (inr (flooded_only, length (flooded_assets m (value fc)), df), log') /\
    rows df =
      (fun f => {| Type_ := name;
                   Latitude := snd (centroid (geometry f));
                   Longitude := fst (centroid (geometry f));
                   Estimated_Loss_INR := unit_cost |})
        <$> flooded_assets m (value fc) /\
    flooded_assets m (value fc) `sublist_of` value fc.
Proof.
  split; [|split].
  - intros l log0. rewrite ee_map_value.
    apply (mapM_Py_total (row_of name)
             (fun f => value (locate unit_cost f))
             (table_row name unit_cost)).
    intros f log1. apply row_of_locate.
  - intros f log0. apply row_of_missing_lat.
  - destruct (mark_flooded_assets_table fc m name unit_cost log)
      as (h & log' & Heq).
    rewrite asset_rows_flooded_assets, length_fmap in Heq.
    eexists _, _, _. split; [exact Heq|]. split.
    + reflexivity.
    + apply filter_sublist.
Qed.

(** ** Classifying again *)

Lemma set_flooded_twice f v :
  set (set f "flooded" (Some v)) "flooded" (Some v) = set f "flooded" (Some v).
Proof.
  unfold set; cbn [geometry properties]. f_equal. apply insert_insert_eq.
Qed.

Lemma zonal_max_set m f k v :
  zonal_max m (geometry (set f k v)) = zonal_max m (geometry f).
Proof. reflexivity. Qed.

Lemma flooded_features_cons m f l :
  flooded_features m (f :: l) =
  if equals_one (zonal_max m (geometry f))
  then set f "flooded" (zonal_max m (geometry f)) :: flooded_features m l
  else flooded_features m l.
Proof.
  unfold flooded_features, marked. cbn [fmap list_fmap List.filter].
  now rewrite Filter_eq_set.
Qed.

Lemma flooded_features_idempotent m fc :
  flooded_features m (flooded_features m fc) = flooded_features m fc.
Proof.
  induction fc as [|f l IH]; [reflexivity|].
  rewrite flooded_features_cons.
  destruct (equals_one (zonal_max m (geometry f))) eqn:Hone; [|exact IH].
  rewrite flooded_features_cons, zonal_max_set, Hone, IH.
  destruct (zonal_max m (geometry f)) as [v|]; [|discriminate].
  now rewrite set_flooded_twice.
Qed.

(** X3. Classification is idempotent: handing the flooded collection the
    call returned to a second call with the same mask, name and cost gives
    the same count, the same table and a collection with the same
    features. *)
Theorem mark_flooded_assets_idempotent
    (fc : ComputedObject FeatureCollection) (m : Image) (name : string)
    (unit_cost : Q) (log : list Reduction) :
  exists h1 count df log1 h2 log2,
    mark_flooded_assets fc m name unit_cost log =
      (inr (h1, count, df), log1) /\
    mark_flooded_assets h1 m name unit_cost log1 =
      (inr (h2, count, df), log2) /\
    value h2 = value h1.
Proof.
  rewrite mark_flooded_assets_eq.
  destruct (value fc) as [|f0 l] eqn:Hfc.
  - exists fc, 0, (pd_DataFrame []), (log ++ reductions fc), fc.
    eexists. split; [reflexivity|]. split; [|reflexivity].
    rewrite mark_flooded_assets_eq, Hfc. reflexivity.
  - set (h1 := ee_filter (Filter_eq "flooded" 1) (ee_map (mark m) fc)).
    assert (Hh1 : value h1 = flooded_features m (f0 :: l))
      by (unfold h1; now rewrite flooded_only_value, Hfc).
    destruct (value h1) as [|g0 k] eqn:Hv.
    + eexists h1, _, _, _, h1, _. split; [reflexivity|].
      split; [|reflexivity].
      rewrite mark_flooded_assets_eq, Hv, <- Hh1. reflexivity.
    + eexists h1, _, _, _, _, _. split; [reflexivity|].
      split.
      * rewrite mark_flooded_assets_eq, Hv.
        rewrite Hh1, flooded_features_idempotent. reflexivity.
      * rewrite flooded_only_value, Hv.
        rewrite Hh1. apply flooded_features_idempotent.
Qed.

(** ** The threshold and the assets *)

Lemma flagged_threshold_mono pre post t1 t2 c :
  (t2 <= t1)%Q ->
  flagged (flood_mask_at t2 pre post) c = true ->
  flagged (flood_mask_at t1 pre post) c = true.
Proof.
  intros Hle. rewrite !flagged_iff_one, !flood_mask_at_flags.
  intros (p & q & Hp & Hq & Hlt). exists p, q. repeat split; try assumption.
  eapply Qlt_le_trans; eassumption.
Qed.

Lemma equals_one_zonal_flood_mask t pre post g :
  equals_one (zonal_max (flood_mask_at t pre post) g) = true <->
  exists c, c ∈ cells g /\ flagged (flood_mask_at t pre post) c = true.
Proof.
  rewrite zonal_max_flood_mask.
  pose proof (defined_values_nil (flood_mask_at t pre post) g) as Hnil.
  destruct (defined_values (flood_mask_at t pre post) g) as [|v vs]; split.
  - discriminate.
  - intros (c & Hc & Hf). unfold flagged in Hf.
    rewrite (proj1 Hnil eq_refl c Hc) in Hf. discriminate.
  - intros _.
    destruct (existsb (flagged (flood_mask_at t pre post)) (cells g)) eqn:E.
    + apply existsb_exists in E. destruct E as (c & Hc & Hf).
      exists c. split; [now apply list_elem_of_In|exact Hf].
    + exfalso. assert (H : v :: vs = []); [|discriminate].
      apply Hnil. intros c Hc. apply list_elem_of_In in Hc.
      destruct (pixel (flood_mask_at t pre post) c) eqn:Hp; [|reflexivity].
      assert (existsb (flagged (flood_mask_at t pre post)) (cells g) = true).
      { apply existsb_exists. exists c. split; [exact Hc|].
        unfold flagged. now rewrite Hp. }
      congruence.
  - reflexivity.
Qed.

(** X4. For fixed observations and a fixed collection, the assets marked at
    a threshold are marked at every higher threshold: the rows tabulated at
    the lower threshold are, in order, among those tabulated at the higher
    one, and the count does not grow when the threshold is lowered. *)
Theorem flooded_assets_threshold_monotone
    (pre post : Image) (t1 t2 : Q) (Hle : (t2 <= t1)%Q)
    (fc : ComputedObject FeatureCollection) (name : string) (unit_cost : Q)
    (log : list Reduction) :
  exists h2 df2 log2 h1 df1 log1,
    mark_flooded_assets fc (flood_mask_at t2 pre post) name unit_cost log =
      (inr (h2, length (rows df2), df2), log2) /\
    mark_flooded_assets fc (flood_mask_at t1 pre post) name unit_cost log =
      (inr (h1, length (rows df1), df1), log1) /\
    rows df2 `sublist_of` rows df1 /\
    length (rows df2) <= length (rows df1).
Proof.
  destruct (mark_flooded_assets_table fc (flood_mask_at t2 pre post)
              name unit_cost log) as (h2 & log2 & H2).
  destruct (mark_flooded_assets_table fc (flood_mask_at t1 pre post)
              name unit_cost log) as (h1 & log1 & H1).
  exists h2, (pd_DataFrame (asset_rows (flood_mask_at t2 pre post) fc
                              name unit_cost)), log2,
         h1, (pd_DataFrame (asset_rows (flood_mask_at t1 pre post) fc
                              name unit_cost)), log1.
  split; [exact H2|]. split; [exact H1|].
  cbn [rows pd_DataFrame].
  assert (Hsub : asset_rows (flood_mask_at t2 pre post) fc name unit_cost
                 `sublist_of`
                 asset_rows (flood_mask_at t1 pre post) fc name unit_cost).
  { rewrite !asset_rows_flooded_assets. apply fmap_sublist.
    apply filter_sublist_mono. intros f.
    rewrite !equals_one_zonal_flood_mask. intros (c & Hc & Hf).
    exists c. split; [exact Hc|].
    eapply flagged_threshold_mono; eassumption. }
  split; [exact Hsub|]. apply sublist_length, Hsub.
Qed.

(** ** The merged table *)

Lemma Series_sum_app l1 l2 :
  (Series_sum (l1 ++ l2) == Series_sum l1 + Series_sum l2)%Q.
Proof.
  unfold Series_sum. induction l1 as [|x l1 IH]; cbn [app foldr].
  - ring.
  - rewrite IH. ring.
Qed.

Lemma Qnat_S n : (Qnat (S n) == 1 + Qnat n)%Q.
Proof.
  unfold Qnat. rewrite Nat2Z.inj_succ, <- Z.add_1_l, inject_Z_plus.
  reflexivity.
Qed.

Lemma Series_sum_asset_rows m fc name unit_cost :
  (Series_sum (Estimated_Loss_INR <$> asset_rows m fc name unit_cost) ==
   unit_cost * Qnat (length (asset_rows m fc name unit_cost)))%Q.
Proof.
  unfold asset_rows.
  induction (flooded_features m (value fc)) as [|f l IH].
  - unfold Series_sum, Qnat; simpl. ring.
  - cbn [fmap list_fmap length]. rewrite Qnat_S.
    unfold Series_sum in *. cbn [foldr Estimated_Loss_INR table_row].
    rewrite IH. ring.
Qed.

Lemma tabulated_total s :
  (total_loss (tabulated_losses s) ==
   500000 * Qnat (b_count (tabulated_losses s)) +
   1000000 * Qnat (r_count (tabulated_losses s)) +
   5000000 * Qnat (h_count (tabulated_losses s)))%Q.
Proof.
  unfold tabulated_losses. cbv zeta.
  cbn [total_loss b_count r_count h_count].
  rewrite !fmap_app, !Series_sum_app, !Series_sum_asset_rows.
  unfold building_cost, road_cost, hospital_cost. ring.
Qed.

(** X5. The total of line 122 is 500000 for each flooded building plus
    1000000 for each flooded road plus 5000000 for each flooded hospital,
    and it is 0 exactly when no asset is flooded. *)
Theorem total_loss_by_counts (s : Scene) (log : list Reduction) :
  exists l log1,
    assess_losses s log = (inr l, log1) /\
    (total_loss l ==
     500000 * Qnat (b_count l) + 1000000 * Qnat (r_count l) +
     5000000 * Qnat (h_count l))%Q /\
    ((total_loss l == 0)%Q <-> b_count l + r_count l + h_count l = 0).
Proof.
  destruct (assess_losses_eq s log) as (log1 & Hl).
  exists (tabulated_losses s), log1. split; [exact Hl|].
  split; [apply tabulated_total|].
  rewrite tabulated_total. unfold Qnat.
  change 500000%Q with (inject_Z 500000).
  change 1000000%Q with (inject_Z 1000000).
  change 5000000%Q with (inject_Z 5000000).
  rewrite <- !inject_Z_mult, <- !inject_Z_plus.
  change 0%Q with (inject_Z 0). rewrite inject_Z_injective. lia.
Qed.

Lemma asset_rows_types m fc name unit_cost :
  Type_ <$> asset_rows m fc name unit_cost =
  replicate (length (asset_rows m fc name unit_cost)) name.
Proof.
  unfold asset_rows.
  induction (flooded_features m (value fc)) as [|f l IH]; [reflexivity|].
  cbn [fmap list_fmap length replicate]. f_equal. exact IH.
Qed.

(** X6. The merged table lists the building rows first, then the road rows,
    then the hospital rows: its Type column is b_count times "Building",
    r_count times "Road" and h_count times "Hospital", in this order. *)
Theorem all_df_rows_grouped_by_type (s : Scene) (log : list Reduction) :
  exists l log1,
    assess_losses s log = (inr l, log1) /\
    Type_ <$> rows (all_df l) =
      replicate (b_count l) "Building" ++ replicate (r_count l) "Road" ++
      replicate (h_count l) "Hospital".
Proof.
  destruct (assess_losses_eq s log) as (log1 & Hl).
  exists (tabulated_losses s), log1. split; [exact Hl|].
  rewrite tabulated_rows, !fmap_app, !asset_rows_types. reflexivity.
Qed.

Lemma tabulated_columns s :
  columns (all_df (tabulated_losses s)) =
  match rows (all_df (tabulated_losses s)) with
  | [] => []
  | _ :: _ => row_columns
  end.
Proof.
  rewrite tabulated_rows. unfold tabulated_losses. cbv zeta. cbn [all_df].
  destruct (asset_rows _ (buildings s) _ _),
           (asset_rows _ (roads s) _ _),
           (asset_rows _ (hospitals s) _ _); reflexivity.
Qed.

(** X7. When no asset is flooded the merged table has no column at all, so
    reading its loss column raises KeyError: only the test of line 122 keeps
    the script from it. When some asset is flooded the table has the four
    columns Type, Latitude, Longitude, Estimated_Loss_INR in this order. The
    table is empty, and no download is offered at line 155, exactly when the
    three counts are 0. *)
Theorem all_df_columns_and_guard (s : Scene) (log : list Reduction) :
  exists l log1,
    assess_losses s log = (inr l, log1) /\
    (empty (all_df l) = true <-> b_count l + r_count l + h_count l = 0) /\
    match (b_count l + r_count l + h_count l)%nat with
    | 0%nat => columns (all_df l) = [] /\
           forall log', loss_column (all_df l) log' =
                        (inl (KeyError "Estimated_Loss_INR"), log')
    | S _ => columns (all_df l) =
               ["Type"; "Latitude"; "Longitude"; "Estimated_Loss_INR"] /\
             forall log', loss_column (all_df l) log' =
                          (inr (Estimated_Loss_INR <$> rows (all_df l)), log')
    end.
Proof.
  destruct (assess_losses_eq s log) as (log1 & Hl).
  exists (tabulated_losses s), log1. split; [exact Hl|].
  pose proof (tabulated_columns s) as Hcols.
  assert (Hlen : b_count (tabulated_losses s) + r_count (tabulated_losses s) +
                 h_count (tabulated_losses s) =
                 length (rows (all_df (tabulated_losses s)))).
  { rewrite tabulated_rows, !length_app. unfold tabulated_losses. cbv zeta.
    cbn [b_count r_count h_count]. lia. }
  rewrite Hlen. unfold empty, loss_column. rewrite Hcols.
  destruct (rows (all_df (tabulated_losses s))) as [|r rs]; cbn [length].
  - split; [split; reflexivity|]. split; reflexivity.
  - split; [split; discriminate|]. split; reflexivity.
Qed.

(** ** The capped layers, feature by feature *)

Lemma intersects_shares_cell g1 g2 :
  intersects g1 g2 = true <-> exists c, c ∈ cells g1 /\ c ∈ cells g2.
Proof.
  unfold intersects. rewrite existsb_exists. split.
  - intros (c & Hc & Hd). apply bool_decide_eq_true in Hd.
    exists c. split; [now apply list_elem_of_In|exact Hd].
  - intros (c & Hc & Hd). exists c. split; [now apply list_elem_of_In|].
    now apply bool_decide_eq_true.
Qed.

Lemma limit_filterBounds_value src g n :
  value (limit (filterBounds (mret src) g) n) = take n (intersecting src g).
Proof. reflexivity. Qed.

Lemma capped_selection src g n :
  let picked := value (limit (filterBounds (mret src) g) n) in
  picked `prefix_of` intersecting src g /\
  picked `sublist_of` src /\
  (forall f, f ∈ picked ->
     f ∈ src /\ exists c, c ∈ cells (geometry f) /\ c ∈ cells g) /\
  (length (intersecting src g) <= n -> picked = intersecting src g) /\
  (n <= length (intersecting src g) -> length picked = n).
Proof.
  intros picked. unfold picked. rewrite limit_filterBounds_value.
  split; [|split; [|split; [|split]]].
  - exists (drop n (intersecting src g)). symmetry. apply take_drop.
  - etransitivity; [apply sublist_take|]. apply filter_sublist.
  - intros f Hf.
    assert (Hin : f ∈ intersecting src g)
      by (eapply elem_of_sublist; [exact Hf|apply sublist_take]).
    unfold intersecting in Hin.
    apply list_elem_of_In, filter_In in Hin. destruct Hin as [Hsrc Hint].
    split; [now apply list_elem_of_In|].
    now apply intersects_shares_cell.
  - intros Hlen. now apply take_ge.
  - intros Hlen. now apply length_take_le.
Qed.

(** X8. The hospitals handed to the classifier are the first 10 features of
    the source that share a cell with the AOI, in the order of the source,
    and the roads the first 50: every one of them comes from the source and
    meets the AOI, none is dropped when at most 10 (50) features meet the
    AOI, and exactly 10 (50) are kept when more do. *)
Theorem hospitals_and_roads_selection (s : Scene) :
  (value (hospitals s) `prefix_of` intersecting (WDPA_polygons s) (aoi s) /\
   value (hospitals s) `sublist_of` WDPA_polygons s /\
   (forall f, f ∈ value (hospitals s) ->
      f ∈ WDPA_polygons s /\
      exists c, c ∈ cells (geometry f) /\ c ∈ cells (aoi s)) /\
   (length (intersecting (WDPA_polygons s) (aoi s)) <= 10 ->
      value (hospitals s) = intersecting (WDPA_polygons s) (aoi s)) /\
   (10 <= length (intersecting (WDPA_polygons s) (aoi s)) ->
      length (value (hospitals s)) = 10)) /\
  (value (roads s) `prefix_of` intersecting (TIGER_Roads s) (aoi s) /\
   value (roads s) `sublist_of` TIGER_Roads s /\
   (forall f, f ∈ value (roads s) ->
      f ∈ TIGER_Roads s /\
      exists c, c ∈ cells (geometry f) /\ c ∈ cells (aoi s)) /\
   (length (intersecting (TIGER_Roads s) (aoi s)) <= 50 ->
      value (roads s) = intersecting (TIGER_Roads s) (aoi s)) /\
   (50 <= length (intersecting (TIGER_Roads s) (aoi s)) ->
      length (value (roads s)) = 50)).
Proof.
  split.
  - exact (capped_selection (WDPA_polygons s) (aoi s) 10).
  - exact (capped_selection (TIGER_Roads s) (aoi s) 50).
Qed.

(** ** The flooded area, cell by cell *)

Lemma Series_sum_ext {A} (f g : A -> Q) (l : list A) :
  (forall x, f x == g x)%Q ->
  (Series_sum (f <$> l) == Series_sum (g <$> l))%Q.
Proof.
  intros Hfg. unfold Series_sum.
  induction l as [|x l IH]; cbn [fmap list_fmap foldr]; [reflexivity|].
  rewrite IH, (Hfg x). reflexivity.
Qed.

Lemma Series_sum_le {A} (f g : A -> Q) (l : list A) :
  (forall x, f x <= g x)%Q ->
  (Series_sum (f <$> l) <= Series_sum (g <$> l))%Q.
Proof.
  intros Hfg. unfold Series_sum.
  induction l as [|x l IH]; cbn [fmap list_fmap foldr].
  - apply Qle_refl.
  - apply Qplus_le_compat; [apply Hfg|exact IH].
Qed.

Lemma Series_sum_zero {A} (l : list A) :
  (Series_sum ((fun _ => 0) <$> l) == 0)%Q.
Proof.
  unfold Series_sum.
  induction l as [|x l IH]; cbn [fmap list_fmap foldr]; [reflexivity|].
  rewrite IH. ring.
Qed.

Lemma Qdiv_million_le x y :
  (x <= y)%Q -> (x / 1000000 <= y / 1000000)%Q.
Proof.
  intros Hxy. unfold Qdiv. apply Qmult_le_compat_r; [exact Hxy|].
  unfold Qle; simpl; lia.
Qed.

(** X9. When the area step returns a number, it is the total area of the
    flagged cells of the AOI divided by 1,000,000: a cell that is not
    flagged adds nothing. With pixel areas that are not negative, the result
    lies between 0 and the area of the whole AOI. *)
Theorem flood_area_is_flagged_area
    (s : Scene) (log log' : list Reduction) (a : Q)
    (Hret : flood_area s log = (inr a, log'))
    (Hpos : forall c y, pixel (pixelArea s) c = Some y -> (0 <= y)%Q) :
  (a == Series_sum
          ((fun c => if flagged (flood_mask (pre_img s) (post_img s)) c
                     then cell_area s c else 0) <$> cells (aoi s))
        / 1000000)%Q /\
  (0 <= a)%Q /\
  (a <= Series_sum (cell_area s <$> cells (aoi s)) / 1000000)%Q.
Proof.
  assert (Harea : forall c, (0 <= cell_area s c)%Q).
  { intros c. unfold cell_area.
    destruct (pixel (pixelArea s) c) as [y|] eqn:E; simpl.
    - eapply Hpos, E.
    - apply Qle_refl. }
  assert (Heq : (a == Series_sum
          ((fun c => if flagged (flood_mask (pre_img s) (post_img s)) c
                     then cell_area s c else 0) <$> cells (aoi s))
        / 1000000)%Q).
  { rewrite flood_area_eq, area_sum_eq in Hret.
    pose proof (Series_sum_contributions s (cells (aoi s))) as Hsum.
    fold (defined_values (area_image s) (aoi s)) in Hsum.
    destruct (defined_values (area_image s) (aoi s)) as [|v vs];
      [discriminate|].
    cbn [reduce combine] in Hret. injection Hret as <- _.
    rewrite fold_left_Qplus.
    change (v + Series_sum vs)%Q with (Series_sum (v :: vs)).
    rewrite Hsum.
    rewrite (Series_sum_ext (cell_contribution s)
               (fun c => if flagged (flood_mask (pre_img s) (post_img s)) c
                         then cell_area s c else 0%Q)).
    - reflexivity.
    - intros c. apply cell_contribution_flagged. }
  split; [exact Heq|]. rewrite Heq. split.
  - apply (Qle_trans _ (0 / 1000000)); [unfold Qle; simpl; lia|].
    apply Qdiv_million_le.
    rewrite <- (Series_sum_zero (cells (aoi s))).
    apply Series_sum_le. intros c. destruct (flagged _ c); [apply Harea|].
    apply Qle_refl.
  - apply Qdiv_million_le, Series_sum_le. intros c.
    destruct (flagged _ c); [apply Qle_refl|apply Harea].
Qed.

(** The small scene: two flagged cells of 10000 square metres each. *)
Lemma flood_area_is_flagged_area_witness :
  flood_area example_scene [] =
    (inr 0.020000%Q, [(Reducer_sum, aoi example_scene)]) /\
  (0 <= 0.020000)%Q /\
  (0.020000 <=
   Series_sum (cell_area example_scene <$> cells (aoi example_scene))
     / 1000000)%Q.
Proof.
  assert (Hret : flood_area example_scene [] =
                 (inr 0.020000%Q, [(Reducer_sum, aoi example_scene)]))
    by (vm_compute; reflexivity).
  assert (Hpos : forall c y,
            pixel (pixelArea example_scene) c = Some y -> (0 <= y)%Q).
  { intros c y [= <-]. unfold Qle; simpl; lia. }
  split; [exact Hret|].
  exact (proj2 (flood_area_is_flagged_area example_scene [] _ _ Hret Hpos)).
Defined.

(** Thresholds -1.5 and -0.5 on the building layer of the small scene. *)
Lemma flooded_assets_threshold_monotone_witness :
  (-1.5 <= -0.5)%Q /\
  exists h2 df2 log2 h1 df1 log1,
    mark_flooded_assets (buildings example_scene)
      (flood_mask_at (-1.5) example_pre example_post)
      "Building" building_cost [] =
      (inr (h2, length (rows df2), df2), log2) /\
    mark_flooded_assets (buildings example_scene)
      (flood_mask_at (-0.5) example_pre example_post)
      "Building" building_cost [] =
      (inr (h1, length (rows df1), df1), log1) /\
    rows df2 `sublist_of` rows df1 /\
    length (rows df2) <= length (rows df1).
Proof.
  assert (Hle : (-1.5 <= -0.5)%Q) by (unfold Qle; simpl; lia).
  split; [exact Hle|].
  exact (flooded_assets_threshold_monotone example_pre example_post
           (-0.5) (-1.5) Hle (buildings example_scene) "Building"
           building_cost []).
Defined.

(** ** Which assets the script's mask marks *)

Lemma flooded_assets_flood_mask pre post fc :
  flooded_assets (flood_mask pre post) fc =
  List.filter
    (fun f => existsb (flagged (flood_mask pre post)) (cells (geometry f)))
    fc.
Proof.
  unfold flooded_assets. induction fc as [|f l IH]; [reflexivity|].
  cbn [List.filter]. rewrite IH.
  assert (Hiff : equals_one (zonal_max (flood_mask pre post) (geometry f)) =
                 existsb (flagged (flood_mask pre post)) (cells (geometry f))).
  { apply eq_true_iff_eq. unfold flood_mask.
    rewrite equals_one_zonal_flood_mask, existsb_exists.
    split; intros (c & Hc & Hf); exists c; split; try exact Hf;
      now apply list_elem_of_In. }
  now rewrite Hiff.
Qed.

(** X2. Under the mask of line 58 an asset is tabulated exactly when some
    cell of its footprint is flagged: the count is the number of assets with
    a flagged cell and the table has their rows, in order. An asset whose
    footprint covers no cell is never tabulated. *)
Theorem mark_flooded_assets_touching_flagged_cells
    (fc : ComputedObject FeatureCollection) (pre post : Image)
    (name : string) (unit_cost : Q) (log : list Reduction) :
  let touches := fun f =>
    existsb (flagged (flood_mask pre post)) (cells (geometry f)) in
  exists h df log',
    mark_flooded_assets fc (flood_mask pre post) name unit_cost log =
      (inr (h, length (List.filter touches (value fc)), df), log') /\
    rows df = table_row name unit_cost <$> List.filter touches (value fc) /\
    (forall f, cells (geometry f) = [] -> touches f = false).
Proof.
  intros touches.
  destruct (mark_flooded_assets_table fc (flood_mask pre post) name
              unit_cost log) as (h & log' & Heq).
  rewrite asset_rows_flooded_assets, length_fmap in Heq.
  rewrite flooded_assets_flood_mask in Heq. fold touches in Heq.
  eexists _, _, _. split; [exact Heq|]. split; [reflexivity|].
  intros f Hnil. unfold touches. now rewrite Hnil.
Qed.

(** ** The built-up mask *)

Lemma ghsl_pixel built aoi c :
  pixel (ghsl built aoi) c =
  if bool_decide (c ∈ cells aoi)
  then match pixel built c with
       | Some v => if Qltb 0 v then Some 1%Q else None
       | None => None
       end
  else None.
Proof.
  unfold ghsl, select0, selfMask, gt, clip; cbn [pixel].
  destruct (bool_decide (c ∈ cells aoi)); [|reflexivity].
  destruct (pixel built c) as [v|]; [|reflexivity].
  destruct (Qltb 0 v); reflexivity.
Qed.

(** X10. The built-up mask of line 64 holds 1 exactly on the cells of the
    AOI where the GHSL value is positive. Every other cell is masked: cells
    outside the AOI, cells without data and cells whose value is 0 or
    negative; no cell holds 0. *)
Theorem ghsl_built_up_mask (built : Image) (aoi : Geometry) (c : Cell) :
  (pixel (ghsl built aoi) c = Some 1%Q <->
     c ∈ cells aoi /\ exists v, pixel built c = Some v /\ (0 < v)%Q) /\
  (pixel (ghsl built aoi) c = Some 1%Q \/ pixel (ghsl built aoi) c = None).
Proof.
  rewrite ghsl_pixel. destruct (bool_decide (c ∈ cells aoi)) eqn:Hin.
  - apply bool_decide_eq_true in Hin.
    destruct (pixel built c) as [v|].
    + destruct (Qltb 0 v) eqn:Hv.
      * apply Qltb_lt in Hv. split; [|now left].
        split; [intros _; eauto|reflexivity].
      * split; [|now right]. split; [discriminate|].
        intros (_ & w & [= <-] & Hw). apply Qltb_lt in Hw. congruence.
    + split; [|now right]. split; [discriminate|].
      intros (_ & w & Hw & _). discriminate.
  - apply bool_decide_eq_false in Hin. split; [|now right].
    split; [discriminate|]. intros (Hc & _). contradiction.
Qed.

(** ** The direction of the change *)

(** X11. No cell is flagged both for a pair of observations and for the
    swapped pair, and comparing an observation with itself flags nothing:
    the difference of the swapped pair is the opposite of the difference,
    and both cannot lie below -1.5. *)
Theorem flood_mask_never_flags_a_swapped_pair (pre post : Image) (c : Cell) :
  flagged (flood_mask pre post) c && flagged (flood_mask post pre) c = false /\
  flagged (flood_mask pre pre) c = false.
Proof.
  assert (Hiff : forall a b,
            flagged (flood_mask a b) c = true <->
            exists p q, pixel a c = Some p /\ pixel b c = Some q /\
                        (p - q < threshold)%Q).
  { intros a b. unfold flood_mask.
    now rewrite flagged_iff_one, flood_mask_at_flags. }
  split.
  - destruct (flagged (flood_mask pre post) c) eqn:H1; [|reflexivity].
    destruct (flagged (flood_mask post pre) c) eqn:H2; [|reflexivity].
    exfalso. apply Hiff in H1, H2.
    destruct H1 as (p & q & Hp & Hq & Hpq).
    destruct H2 as (q' & p' & Hq' & Hp' & Hqp).
    rewrite Hq in Hq'. rewrite Hp in Hp'.
    injection Hq' as <-. injection Hp' as <-.
    assert (Hopp : (q - p == - (p - q))%Q) by ring.
    rewrite Hopp in Hqp.
    assert (Hsum : (p - q + - (p - q) < threshold + threshold)%Q)
      by (apply Qplus_lt_le_compat; [exact Hpq|now apply Qlt_le_weak]).
    rewrite Qplus_opp_r in Hsum. discriminate.
  - destruct (flagged (flood_mask pre pre) c) eqn:H1; [|reflexivity].
    exfalso. apply Hiff in H1. destruct H1 as (p & q & Hp & Hq & Hpq).
    rewrite Hp in Hq. injection Hq as <-.
    unfold Qminus in Hpq. rewrite Qplus_opp_r in Hpq. discriminate.
Qed.

(** ** Sentinel-1 composites *)

Lemma selected_scenes_iff adv archive aoi date sc :
  sc ∈ selected_scenes adv archive aoi date <->
  sc ∈ archive /\
  (exists c, c ∈ cells (scene_geometry sc) /\ c ∈ cells aoi) /\
  (date <= system_time_start sc < adv date)%Z /\
  instrumentMode sc = "IW" /\
  orbitProperties_pass sc = "DESCENDING" /\
  "VV" ∈ transmitterReceiverPolarisation sc.
Proof.
  unfold selected_scenes, s1_filter_polarisation, s1_filter_pass,
    s1_filter_mode, s1_filterDate, s1_filterBounds.
  rewrite list_elem_of_In, !filter_In, <- list_elem_of_In.
  rewrite bool_decide_eq_true, !String.eqb_eq, andb_true_iff,
    Z.leb_le, Z.ltb_lt, intersects_shares_cell.
  tauto.
Qed.

Lemma selected_scenes_app adv a1 a2 aoi date :
  selected_scenes adv (a1 ++ a2) aoi date =
  selected_scenes adv a1 aoi date ++ selected_scenes adv a2 aoi date.
Proof.
  unfold selected_scenes, s1_filter_polarisation, s1_filter_pass,
    s1_filter_mode, s1_filterDate, s1_filterBounds.
  now rewrite !List.filter_app.
Qed.

Lemma mean_of_None vs : mean_of vs = None <-> vs = [].
Proof. destruct vs; split; intros H; try reflexivity; discriminate. Qed.

(** X12. A pixel of the composite has no data exactly when every scene of
    the archive that meets the AOI, starts in the month from the date (the
    date included, the end excluded), is in IW mode, on a descending pass
    and has VV among its polarisations is masked there. Scenes that fail
    one of these tests never change the composite. *)
Theorem get_sentinel1_image_selection
    (adv : Z -> Z) (archive others : list S1Scene) (aoi : Geometry)
    (date : Z) (c : Cell) :
  (pixel (get_sentinel1_image adv archive aoi date) c = None <->
   forall sc, sc ∈ archive ->
     (exists c', c' ∈ cells (scene_geometry sc) /\ c' ∈ cells aoi) ->
     (date <= system_time_start sc < adv date)%Z ->
     instrumentMode sc = "IW" ->
     orbitProperties_pass sc = "DESCENDING" ->
     "VV" ∈ transmitterReceiverPolarisation sc ->
     VV sc c = None) /\
  (selected_scenes adv others aoi date = [] ->
   get_sentinel1_image adv (archive ++ others) aoi date =
   get_sentinel1_image adv archive aoi date).
Proof.
  split.
  - cbn [get_sentinel1_image pixel]. rewrite mean_of_None. split.
    + intros Hnil sc Hin Hb Hd Hm Hp Hv.
      destruct (VV sc c) as [v|] eqn:E; [|reflexivity].
      assert (Hsel : sc ∈ selected_scenes adv archive aoi date)
        by (apply selected_scenes_iff; tauto).
      assert (Hv' : v ∈ omap (fun sc => VV sc c)
                          (selected_scenes adv archive aoi date))
        by (apply list_elem_of_omap; eauto).
      rewrite Hnil in Hv'. inversion Hv'.
    + intros Hall.
      destruct (omap (fun sc => VV sc c) _) as [|v vs] eqn:E; [reflexivity|].
      assert (Hv : v ∈ omap (fun sc => VV sc c)
                         (selected_scenes adv archive aoi date))
        by (rewrite E; constructor).
      apply list_elem_of_omap in Hv. destruct Hv as (sc & Hsel & Hsc).
      apply selected_scenes_iff in Hsel.
      destruct Hsel as (Hin & Hb & Hd & Hm & Hp & Hv).
      rewrite (Hall sc Hin Hb Hd Hm Hp Hv) in Hsc. discriminate.
  - intros Hnone. unfold get_sentinel1_image.
    now rewrite selected_scenes_app, Hnone, app_nil_r.
Qed.

(** ** What the caps do to the losses *)

Lemma asset_rows_length_le m fc name unit_cost :
  length (asset_rows m fc name unit_cost) <= length (value fc).
Proof.
  rewrite asset_rows_flooded_assets, length_fmap.
  apply sublist_length, filter_sublist.
Qed.

Lemma Qnat_le n k : n <= k -> (Qnat n <= Qnat k)%Q.
Proof. intros H. unfold Qnat. rewrite <- Zle_Qle. lia. Qed.

Lemma Qmult_Qnat_le (cost : Z) n k :
  (0 <= cost)%Z -> n <= k ->
  (inject_Z cost * Qnat n <= inject_Z (cost * Z.of_nat k))%Q.
Proof.
  intros Hc H. unfold Qnat. rewrite <- inject_Z_mult, <- Zle_Qle. nia.
Qed.

(** X14. Whatever the extent of the flooding, the road rows of the merged
    table sum to at most 50,000,000 and the hospital rows to at most
    50,000,000: the caps of lines 71 and 74 bound the two losses. The total
    is at most 500000 per building polygon plus 100,000,000. *)
Theorem losses_bounded_by_caps (s : Scene) (log : list Reduction) :
  exists l log1,
    assess_losses s log = (inr l, log1) /\
    (Series_sum (Estimated_Loss_INR <$> rows_of_type "Road" (all_df l))
       <= 50000000)%Q /\
    (Series_sum (Estimated_Loss_INR <$> rows_of_type "Hospital" (all_df l))
       <= 50000000)%Q /\
    (total_loss l <=
     500000 * Qnat (length (GHSL_vectors s)) + 100000000)%Q.
Proof.
  destruct (assess_losses_eq s log) as (log1 & Hl).
  exists (tabulated_losses s), log1. split; [exact Hl|].
  destruct (tabulated_rows_of_type s) as (_ & Hr & Hh).
  set (m := flood_mask (pre_img s) (post_img s)) in *.
  assert (Hnr : length (asset_rows m (roads s) "Road" road_cost) <= 50).
  { etransitivity; [apply asset_rows_length_le|].
    unfold roads, limit. rewrite fmap_value, length_take. lia. }
  assert (Hnh : length (asset_rows m (hospitals s) "Hospital" hospital_cost)
                <= 10).
  { etransitivity; [apply asset_rows_length_le|].
    unfold hospitals, limit. rewrite fmap_value, length_take. lia. }
  assert (Hnb : length (asset_rows m (buildings s) "Building" building_cost)
                <= length (GHSL_vectors s))
    by apply asset_rows_length_le.
  assert (Hroad : (Series_sum (Estimated_Loss_INR <$>
                     asset_rows m (roads s) "Road" road_cost)
                   <= 50000000)%Q).
  { rewrite Series_sum_asset_rows.
    apply (Qmult_Qnat_le 1000000 _ 50); [lia|exact Hnr]. }
  assert (Hhosp : (Series_sum (Estimated_Loss_INR <$>
                     asset_rows m (hospitals s) "Hospital" hospital_cost)
                   <= 50000000)%Q).
  { rewrite Series_sum_asset_rows.
    apply (Qmult_Qnat_le 5000000 _ 10); [lia|exact Hnh]. }
  rewrite Hr, Hh. split; [exact Hroad|]. split; [exact Hhosp|].
  unfold tabulated_losses. cbv zeta. cbn [total_loss]. fold m.
  rewrite !fmap_app, !Series_sum_app.
  setoid_replace (500000 * Qnat (length (GHSL_vectors s)) + 100000000)%Q
    with (500000 * Qnat (length (GHSL_vectors s)) + (50000000 + 50000000))%Q
    using relation Qeq by ring.
  apply Qplus_le_compat; [|now apply Qplus_le_compat].
  rewrite Series_sum_asset_rows. unfold building_cost.
  apply Qmult_le_l; [unfold Qlt; simpl; lia|]. now apply Qnat_le.
Qed.
